(** * The address book: field validators, Record, AddressBook

    A shallow embedding of [addressbook.py]: the Field classes with their
    validators, the Record class and the AddressBook container with its
    search, birthday query and JSON persistence.

    Conventions of the embedding.
    - A Python [str] is a Rocq [string]; the character [ascii] number [n]
      stands for the code point [n], so the strings of the model are the
      Python strings over the code points 0..255.
    - A call that can raise returns a [result]; a method that mutates its
      object returns the object after the call, also when it raises.
    - [datetime.now()] is a parameter [now] of every function that reads
      the clock.
    - The files are a [filesystem], a map from paths to files and
      directories; what [open] raises for a reason outside this map, such as
      a missing directory, is a parameter [env] of [save_to_file].
    - [strftime] is that of CPython on Linux: [%Y] prints the year without
      padding, so a year before 1000 has fewer than four digits. *)

From Stdlib Require Import String Ascii List Bool Arith ZArith NArith Lia.
Import ListNotations.
Local Open Scope string_scope.

(** ** Exceptions and results *)

Inductive exn : Type :=
| AttributeError
| TypeError
| KeyError (key : string)
| ValueError (msg : string)
| JSONDecodeError
| FileNotFoundError
| IsADirectoryError
| NotADirectoryError
| PermissionError.

Inductive result (A : Type) : Type :=
| Ok (a : A)
| Raise (e : exn).

Arguments Ok {A} a.
Arguments Raise {A} e.

Definition bind {A B : Type} (c : result A) (f : A -> result B) : result B :=
  match c with
  | Ok a => f a
  | Raise e => Raise e
  end.

Declare Scope py_scope.
Delimit Scope py_scope with py.
Notation "x <- c ;; k" := (bind c (fun x => k))
  (at level 61, c at next level, right associativity) : py_scope.
Local Open Scope py_scope.

(** [[f(x) for x in l]] where [f] can raise: the first failure aborts. *)
Fixpoint mapM {A B : Type} (f : A -> result B) (l : list A) : result (list B) :=
  match l with
  | [] => Ok []
  | x :: l' => y <- f x ;; ys <- mapM f l' ;; Ok (y :: ys)
  end.

Definition is_ok {A : Type} (c : result A) : bool :=
  match c with Ok _ => true | Raise _ => false end.

(** ** Characters: the classes of [re] and [str.lower] on code points 0..255 *)

Definition code (c : ascii) : N := N_of_ascii c.

Definition in_range (lo hi : N) (c : ascii) : bool :=
  ((lo <=? code c) && (code c <=? hi))%N.

(** [\d]: the decimal digits (category Nd); below 256 these are 0..9. *)
Definition is_digit (c : ascii) : bool := in_range 48 57 c.

(** [\w]: alphanumeric ([str.isalnum]) or the underscore. *)
Definition is_word (c : ascii) : bool :=
  is_digit c || in_range 65 90 c || in_range 97 122 c || (code c =? 95)%N
  || (code c =? 170)%N || (code c =? 178)%N || (code c =? 179)%N
  || (code c =? 181)%N || (code c =? 185)%N || (code c =? 186)%N
  || in_range 188 190 c || in_range 192 214 c || in_range 216 246 c
  || in_range 248 255 c.

(** [\s]: Unicode whitespace. *)
Definition is_space (c : ascii) : bool :=
  in_range 9 13 c || in_range 28 32 c || (code c =? 133)%N || (code c =? 160)%N.

(** [str.lower] on one character. *)
Definition lower_char (c : ascii) : ascii :=
  if in_range 65 90 c || in_range 192 214 c || in_range 216 222 c
  then ascii_of_N (code c + 32)
  else c.

Fixpoint lower (s : string) : string :=
  match s with
  | EmptyString => EmptyString
  | String c s' => String (lower_char c) (lower s')
  end.

(** [q in s] on strings. *)
Fixpoint contains (q s : string) : bool :=
  prefix q s ||
  match s with
  | EmptyString => false
  | String _ s' => contains q s'
  end.

(** ** Regular expressions

    The fragment of [re] the source uses, and [re.match] as a backtracking
    matcher.  [re.match] succeeds when the pattern matches a prefix of the
    string. *)

Inductive cclass : Type :=
| CChar (c : ascii)   (* a literal character *)
| CDigit              (* \d *)
| CWord               (* \w *)
| CSpace.             (* \s *)

Inductive regex : Type :=
| RBol                         (* ^ *)
| REol                         (* $ *)
| RSet (items : list cclass)   (* a literal, an escape or a set [...] *)
| RSeq (r1 r2 : regex)         (* r1 r2 *)
| RRep (n : nat) (r : regex)   (* r{n} *)
| RPlus (r : regex).           (* r+ *)

Definition in_cclass (c : ascii) (i : cclass) : bool :=
  match i with
  | CChar d => Ascii.eqb c d
  | CDigit => is_digit c
  | CWord => is_word c
  | CSpace => is_space c
  end.

Definition in_set (items : list cclass) (c : ascii) : bool :=
  existsb (in_cclass c) items.

(** [rmatch n r fuel s k]: the pattern [r] matches at the front of [s], the
    rest of a subject of length [n], and [k] accepts what is left.  [^]
    holds at position 0.  [$] holds at the end of the subject and just
    before a newline that ends it.  A repetition tries one more round
    first, and a round has to consume input. *)
Fixpoint rmatch (n : nat) (r : regex) {struct r}
  : nat -> string -> (string -> bool) -> bool :=
  match r with
  | RBol => fun _ s k => (String.length s =? n)%nat && k s
  | REol => fun _ s k =>
      match s with
      | EmptyString => k s
      | String c EmptyString => Ascii.eqb c "010" && k s
      | _ => false
      end
  | RSet items => fun _ s k =>
      match s with
      | EmptyString => false
      | String c s' => in_set items c && k s'
      end
  | RSeq r1 r2 => fun fuel s k =>
      rmatch n r1 fuel s (fun s' => rmatch n r2 fuel s' k)
  | RRep m r' => fun fuel s k =>
      (fix rep (m : nat) (s : string) {struct m} : bool :=
         match m with
         | O => k s
         | S m' => rmatch n r' fuel s (fun s' => rep m' s')
         end) m s
  | RPlus r' => fun fuel s k =>
      (fix loop (fuel : nat) (s : string) {struct fuel} : bool :=
         rmatch n r' fuel s (fun s' =>
           match fuel with
           | O => false
           | S fuel' => (String.length s' <? String.length s)%nat && loop fuel' s'
           end || k s')) fuel s
  end.

Definition re_match (r : regex) (s : string) : bool :=
  rmatch (String.length s) r (String.length s) s (fun _ => true).

Definition lit (c : ascii) : regex := RSet [CChar c].
Definition digit : regex := RSet [CDigit].

Fixpoint rseq (rs : list regex) (last : regex) : regex :=
  match rs with
  | [] => last
  | r :: rs' => RSeq r (rseq rs' last)
  end.

(** [re.split] for a pattern [[...]+]: the subject is cut at every maximal
    run of characters of the set; a run at either end leaves an empty piece
    there.  [skipping] says that the previous character was in the set.  The
    head of the result is the piece that starts at the current position. *)
Fixpoint re_split_aux (items : list cclass) (skipping : bool) (s : string)
  : list string :=
  match s with
  | EmptyString => [EmptyString]
  | String c s' =>
      if in_set items c then
        if skipping then re_split_aux items true s'
        else EmptyString :: re_split_aux items true s'
      else
        match re_split_aux items false s' with
        | piece :: pieces => String c piece :: pieces
        | [] => [String c EmptyString]
        end
  end.

Definition re_split (items : list cclass) (s : string) : list string :=
  re_split_aux items false s.

(** ** Values read from a JSON document

    What [json.load] returns: [None], [bool], [int], [float], [str], [list]
    and [dict] (keys in document order).  [Name] and [Address] accept any
    value, so these are also the values a field can be built from. *)

#[warnings="-register-all"]
Inductive json : Type :=
| JNull
| JBool (b : bool)
| JInt (z : Z)
| JFloat (zero : bool)       (* a float; only its truth value is used *)
| JStr (s : string)
| JList (l : list json)
| JDict (d : list (string * json)).

(** The truth value of [v] in [if v]. *)
Definition truthy (v : json) : bool :=
  match v with
  | JNull => false
  | JBool b => b
  | JInt z => negb (z =? 0)%Z
  | JFloat zero => negb zero
  | JStr s => negb (s =? "")
  | JList l => match l with [] => false | _ => true end
  | JDict d => match d with [] => false | _ => true end
  end.

Fixpoint assoc {A : Type} (k : string) (d : list (string * A)) : option A :=
  match d with
  | [] => None
  | (k', v) :: d' => if (k' =? k) then Some v else assoc k d'
  end.

(** [v[key]] for a string key. *)
Definition getitem (v : json) (key : string) : result json :=
  match v with
  | JDict d =>
      match assoc key d with
      | Some x => Ok x
      | None => Raise (KeyError key)
      end
  | _ => Raise TypeError
  end.

Fixpoint chars (s : string) : list json :=
  match s with
  | EmptyString => []
  | String c s' => JStr (String c EmptyString) :: chars s'
  end.

(** [for x in v]: the elements of a list, the characters of a string, the
    keys of a dict. *)
Definition iter (v : json) : result (list json) :=
  match v with
  | JList l => Ok l
  | JStr s => Ok (chars s)
  | JDict d => Ok (map (fun kv => JStr (fst kv)) d)
  | _ => Raise TypeError
  end.

(** ** Field and its subclasses *)

Record Name : Type := mkName { Name_value : json }.
Record Address : Type := mkAddress { Address_value : json }.
Record Phone : Type := mkPhone { Phone_value : string }.
Record Email : Type := mkEmail { Email_value : string }.

(** [Name.__str__] and [Address.__str__] return [self.value]; [str()]
    refuses a result that is not a string. *)
Definition str_of_value (v : json) : result string :=
  match v with
  | JStr s => Ok s
  | _ => Raise TypeError
  end.

(** r'^\+\d{2}-\d{3}-\d{7}$' *)
Definition phone_re1 : regex :=
  rseq [RBol; lit "+"; RRep 2 digit; lit "-"; RRep 3 digit; lit "-"; RRep 7 digit] REol.
(** r'^\+\d{12}$' *)
Definition phone_re2 : regex := rseq [RBol; lit "+"; RRep 12 digit] REol.
(** r'^\d{3}-\d{7}$' *)
Definition phone_re3 : regex := rseq [RBol; RRep 3 digit; lit "-"; RRep 7 digit] REol.
(** r'^\d{10}$' *)
Definition phone_re4 : regex := rseq [RBol; RRep 10 digit] REol.

Definition validate_phone (value : string) : bool :=
  if re_match phone_re1 value || re_match phone_re2 value then true
  else if re_match phone_re3 value || re_match phone_re4 value then true
  else false.

(** [Phone(value)]; [re.match] raises TypeError on a value that is not a
    string. *)
Definition Phone_init (value : json) : result Phone :=
  match value with
  | JStr s =>
      if validate_phone s then Ok (mkPhone s)
      else Raise (ValueError "Invalid phone number")
  | _ => Raise TypeError
  end.

(** r'^[\w\.-]+@[\w\.-]+(\.\w+)+$' *)
Definition email_pattern : regex :=
  rseq [RBol; RPlus (RSet [CWord; CChar "."; CChar "-"]); lit "@";
       RPlus (RSet [CWord; CChar "."; CChar "-"]);
       RPlus (RSeq (lit ".") (RPlus (RSet [CWord])))] REol.

Definition validate_email (value : string) : bool := re_match email_pattern value.

Definition Email_init (value : json) : result Email :=
  match value with
  | JStr s =>
      if validate_email s then Ok (mkEmail s)
      else Raise (ValueError "Invalid email")
  | _ => Raise TypeError
  end.

(** ** datetime

    A [date] is what [datetime(y, m, d).date()] returns; a [datetime] adds
    the time of day, in microseconds since midnight. *)

Local Open Scope Z_scope.

Record date : Type := mkDate { year : Z; month : Z; day : Z }.
Record datetime : Type := mkDatetime { dt_date : date; dt_time : Z }.

Definition MINYEAR : Z := 1.
Definition MAXYEAR : Z := 9999.

Definition is_leap (y : Z) : bool :=
  (y mod 4 =? 0) && (negb (y mod 100 =? 0) || (y mod 400 =? 0)).

Definition days_in_month (y m : Z) : Z :=
  if m =? 2 then (if is_leap y then 29 else 28)
  else if (m =? 4) || (m =? 6) || (m =? 9) || (m =? 11) then 30
  else 31.

(** [datetime(y, m, d)]: midnight of that day, ValueError when the three
    numbers are not a date. *)
Definition datetime_ymd (y m d : Z) : result datetime :=
  if (MINYEAR <=? y) && (y <=? MAXYEAR) && (1 <=? m) && (m <=? 12)
     && (1 <=? d) && (d <=? days_in_month y m)
  then Ok (mkDatetime (mkDate y m d) 0)
  else Raise (ValueError "date value out of range").

Definition days_before_year (y : Z) : Z :=
  let y' := y - 1 in y' * 365 + y' / 4 - y' / 100 + y' / 400.

(** The days of the year before the first of month [m]. *)
Definition days_before_month (y m : Z) : Z :=
  fold_right Z.add 0 (map (days_in_month y) (map Z.of_nat (List.seq 1 (Z.to_nat (m - 1))))).

Definition toordinal (d : date) : Z :=
  days_before_year (year d) + days_before_month (year d) (month d) + day d.

(** [a > b] on dates. *)
Definition date_gtb (a b : date) : bool :=
  (year b <? year a)
  || ((year b =? year a) &&
      ((month b <? month a) || ((month b =? month a) && (day b <? day a)))).

(** [a <= b] on datetimes. *)
Definition datetime_leb (a b : datetime) : bool :=
  negb (date_gtb (dt_date a) (dt_date b))
  && (date_gtb (dt_date b) (dt_date a) || (dt_time a <=? dt_time b)).

(** [(a - b).days] on dates. *)
Definition days_between (a b : date) : Z := toordinal a - toordinal b.

Definition digit_char (z : Z) : ascii := ascii_of_N (48 + Z.to_N (z mod 10)).

Definition digits2 (z : Z) : string :=
  String (digit_char (z / 10)) (String (digit_char z) EmptyString).

Definition digits4 (z : Z) : string :=
  String (digit_char (z / 1000)) (String (digit_char (z / 100)) (digits2 z)).

(** [%Y]: the year in decimal without padding, as the C library of Linux
    prints it: [999] for the year 999.  The years of a [datetime] have at
    most four digits. *)
Definition year_text (y : Z) : string :=
  if y <? 10 then String (digit_char y) EmptyString
  else if y <? 100 then digits2 y
  else if y <? 1000 then String (digit_char (y / 100)) (digits2 y)
  else digits4 y.

(** [d.strftime('%Y-%m-%d')]: the year as [%Y] prints it, the month and the
    day on two digits. *)
Definition strftime (d : date) : string :=
  year_text (year d) ++ "-" ++ digits2 (month d) ++ "-" ++ digits2 (day d).

Definition digit_val (c : ascii) : Z := Z.of_N (code c) - 48.

(** The month and day fields of [strptime]: the alternatives of the
    library's patterns, tried in its order, 1[0-2]|0[1-9]|[1-9] for %m and
    3[0-1]|[1-2]\d|0[1-9]|[1-9]| [1-9] for %d.  Each returns the number read
    and what follows it. *)
Definition read_month (s : string) : option (Z * string) :=
  match s with
  | String a s1 =>
      let one_digit :=
        match s1 with
        | String "-" rest =>
            if in_range 49 57 a then Some (digit_val a, rest) else None
        | _ => None
        end in
      match s1 with
      | String b (String "-" rest) =>
          if Ascii.eqb a "1" && in_range 48 50 b then Some (10 + digit_val b, rest)
          else if Ascii.eqb a "0" && in_range 49 57 b then Some (digit_val b, rest)
          else one_digit
      | _ => one_digit
      end
  | EmptyString => None
  end.

Definition read_day (s : string) : option (Z * string) :=
  match s with
  | String a (String b rest) =>
      if Ascii.eqb a "3" && in_range 48 49 b then Some (30 + digit_val b, rest)
      else if in_range 49 50 a && is_digit b then Some (10 * digit_val a + digit_val b, rest)
      else if Ascii.eqb a "0" && in_range 49 57 b then Some (digit_val b, rest)
      else if in_range 49 57 a then Some (digit_val a, String b rest)
      else if Ascii.eqb a " " && in_range 49 57 b then Some (digit_val b, rest)
      else None
  | String a EmptyString =>
      if in_range 49 57 a then Some (digit_val a, EmptyString) else None
  | EmptyString => None
  end.

(** [datetime.strptime(s, "%Y-%m-%d")]: four digits, a month and a day as
    above with hyphens between, and nothing after the day. *)
Definition strptime (s : string) : result datetime :=
  match s with
  | String y1 (String y2 (String y3 (String y4 (String "-" rest)))) =>
      if is_digit y1 && is_digit y2 && is_digit y3 && is_digit y4 then
        match read_month rest with
        | Some (m, rest') =>
            match read_day rest' with
            | Some (d, EmptyString) =>
                datetime_ymd (1000 * digit_val y1 + 100 * digit_val y2
                              + 10 * digit_val y3 + digit_val y4) m d
            | Some (_, String _ _) => Raise (ValueError "unconverted data remains")
            | None => Raise (ValueError "time data does not match format")
            end
        | None => Raise (ValueError "time data does not match format")
        end
      else Raise (ValueError "time data does not match format")
  | _ => Raise (ValueError "time data does not match format")
  end.

Record Birthday : Type := mkBirthday { Birthday_value : datetime }.

(** [isinstance(value, datetime) and value <= datetime.now()] *)
Definition validate_birthday (now : datetime) (value : datetime) : bool :=
  datetime_leb value now.

Definition Birthday_init (now : datetime) (value : datetime) : result Birthday :=
  if validate_birthday now value then Ok (mkBirthday value)
  else Raise (ValueError "Invalid birthday").

(** ** Record

    The attributes of a Record object.  An element of [phones] is a string,
    or a [Phone] object between the append and the conversion of
    [add_phone]; [birthday] is [None], a [Birthday], or the string that
    [save_to_file] leaves in its place. *)

Inductive phone_item : Type :=
| PStr (s : string)
| PObj (p : Phone).

Inductive birthday_field : Type :=
| BNone
| BObj (b : Birthday)
| BStr (s : string).

Record record : Type := mkRecord {
  name : string;
  address : string;
  phones : list phone_item;
  emails : list string;
  birthday : birthday_field
}.

Definition set_phones (r : record) (ps : list phone_item) : record :=
  mkRecord (name r) (address r) ps (emails r) (birthday r).

Definition set_birthday (r : record) (b : birthday_field) : record :=
  mkRecord (name r) (address r) (phones r) (emails r) b.

(** [str(p)] for an element of [phones]. *)
Definition phone_str (p : phone_item) : string :=
  match p with
  | PStr s => s
  | PObj o => Phone_value o
  end.

(** [p.value]: a [str] has no such attribute. *)
Definition phone_attr_value (p : phone_item) : result string :=
  match p with
  | PStr _ => Raise AttributeError
  | PObj o => Ok (Phone_value o)
  end.

(** [if b] for the birthday attribute. *)
Definition birthday_truthy (b : birthday_field) : bool :=
  match b with
  | BNone => false
  | BObj _ => true
  | BStr s => negb (s =? "")%string
  end.

(** [b.value]: a [str] has no such attribute. *)
Definition birthday_attr_value (b : birthday_field) : result datetime :=
  match b with
  | BObj o => Ok (Birthday_value o)
  | _ => Raise AttributeError
  end.

(** The separators of [re.split(r'[,\s]+', phone)]. *)
Definition phone_separators : list cclass := [CChar ","; CSpace].

(** The inner loop of [process_phones], over the pieces of one entry. *)
Fixpoint process_numbers (phone_numbers : list string) : result (list phone_item) :=
  match phone_numbers with
  | [] => Ok []
  | phone_number :: rest =>
      if validate_phone phone_number then
        p <- Phone_init (JStr phone_number) ;;
        ps <- process_numbers rest ;;
        Ok (PStr (Phone_value p) :: ps)
      else Raise (ValueError ("Error: Invalid phone number: " ++ phone_number))
  end.

Fixpoint process_phones (phones : list phone_item) : result (list phone_item) :=
  match phones with
  | [] => Ok []
  | phone_field :: rest =>
      let phone := phone_str phone_field in
      ps <- process_numbers (re_split phone_separators phone) ;;
      ps' <- process_phones rest ;;
      Ok (ps ++ ps')%list
  end.

(** [Record(name, address, phones, emails, birthday)]; [None] for an
    argument left at its default. *)
Definition Record_init (name : Name) (address : Address) (phones : list phone_item)
    (emails : option (list Email)) (birthday : option Birthday) : result record :=
  n <- str_of_value (Name_value name) ;;
  a <- str_of_value (Address_value address) ;;
  ps <- process_phones phones ;;
  let es := match emails with
            | Some l => map Email_value l
            | None => []
            end in
  Ok (mkRecord n a ps es (match birthday with Some b => BObj b | None => BNone end)).

Definition update_record_phones (r : record) : record :=
  set_phones r (map (fun phone => PStr (phone_str phone)) (phones r)).

(** [add_phone(phone)]: the message returned, or the exception that leaves
    the method, and the record after the call.  Only ValueError is caught. *)
Definition add_phone (r : record) (phone : json) : result string * record :=
  match Phone_init phone with
  | Ok phone_number =>
      let r1 := set_phones r (phones r ++ [PObj phone_number])%list in
      let r2 := update_record_phones r1 in
      (Ok ("Phone number " ++ Phone_value phone_number ++ " added for " ++ name r2), r2)
  | Raise (ValueError e) => (Ok ("Error: " ++ e), r)
  | Raise e => (Raise e, r)
  end.

(** [[p for p in self.phones if p.value != phone]] *)
Fixpoint phones_without (ps : list phone_item) (phone : string)
  : result (list phone_item) :=
  match ps with
  | [] => Ok []
  | p :: rest =>
      v <- phone_attr_value p ;;
      rest' <- phones_without rest phone ;;
      Ok (if negb (v =? phone)%string then p :: rest' else rest')
  end.

Definition delete_phone (r : record) (phone : string) : result unit * record :=
  match phones_without (phones r) phone with
  | Ok new_phones => (Ok tt, set_phones r new_phones)
  | Raise e => (Raise e, r)
  end.

(** [phone == old_phone] against a string: an object without [__eq__] is
    equal to itself only. *)
Definition phone_eq_str (p : phone_item) (s : string) : bool :=
  match p with
  | PStr s' => (s' =? s)%string
  | PObj _ => false
  end.

Fixpoint replace_first (ps : list phone_item) (old_phone new_phone : string)
  : option (list phone_item) :=
  match ps with
  | [] => None
  | p :: rest =>
      if phone_eq_str p old_phone then Some (PStr new_phone :: rest)
      else option_map (cons p) (replace_first rest old_phone new_phone)
  end.

Definition edit_phone (r : record) (old_phone new_phone : string) : string * record :=
  match replace_first (phones r) old_phone new_phone with
  | Some ps =>
      ("Phone number updated for " ++ name r ++ String "010" "Old phone number: "
       ++ old_phone ++ String "010" "New phone number: " ++ new_phone,
       set_phones r ps)
  | None =>
      ("Error: Old phone number " ++ old_phone ++ " not found in " ++ name r
       ++ "'s record.", r)
  end.

(** The next occurrence of the month and day of [bday] on or after
    [today], and the days until then; shared by [days_to_birthday] and
    [get_upcoming_birthday_contacts], which spell it out the same way. *)
Definition days_left (today : date) (bday : datetime) : result Z :=
  next_birthday <- datetime_ymd (year today) (month (dt_date bday)) (day (dt_date bday)) ;;
  next_birthday <-
    (if date_gtb today (dt_date next_birthday)
     then datetime_ymd (year today + 1) (month (dt_date bday)) (day (dt_date bday))
     else Ok next_birthday) ;;
  Ok (days_between (dt_date next_birthday) today).

(** [days_to_birthday()]: [None] is Python's None. *)
Definition days_to_birthday (now : datetime) (r : record) : result (option Z) :=
  if negb (birthday_truthy (birthday r)) then Ok None
  else
    let today := dt_date now in
    value <- birthday_attr_value (birthday r) ;;
    n <- days_left today value ;;
    Ok (Some n).

(** ** Files

    A path holds nothing, a directory, or a file.  [json.dump] and
    [json.load] are the library's: a file that [json.dump] has written
    completely holds a document, and [json.load] returns the value that was
    dumped; any other text (an empty or cut-off file, text that is not
    JSON) holds none and makes [json.load] raise. *)

Inductive contents : Type :=
| Document (j : json)
| NotJson.

Inductive node : Type :=
| File (c : contents)
| Directory.

Definition filesystem : Type := string -> option node.

Definition write (fs : filesystem) (filename : string) (c : contents) : filesystem :=
  fun p => if (p =? filename)%string then Some (File c) else fs p.

(** [open(filename, 'r')] *)
Definition open_read (fs : filesystem) (filename : string) : result contents :=
  match fs filename with
  | None => Raise FileNotFoundError
  | Some Directory => Raise IsADirectoryError
  | Some (File c) => Ok c
  end.

(** What opening a path for writing raises for a reason that is not in
    the files of the model: FileNotFoundError when the directory of the
    path is missing, NotADirectoryError when the path goes through a file,
    PermissionError; [None] when there is no such reason.  The program
    makes and removes no directory and changes no permission, so this is
    the same at every call. *)
Definition environment : Type := string -> option exn.

(** Every path can be written. *)
Definition writable : environment := fun _ => None.

(** [open(filename, 'w')]: creates the file or empties it.  The empty name
    is the name of no file, and a directory is not opened for writing. *)
Definition open_write (env : environment) (fs : filesystem) (filename : string)
  : result filesystem :=
  if (filename =? "")%string then Raise FileNotFoundError
  else
    match env filename with
    | Some e => Raise e
    | None =>
        match fs filename with
        | Some Directory => Raise IsADirectoryError
        | _ => Ok (write fs filename NotJson)
        end
    end.

Definition json_load (c : contents) : result json :=
  match c with
  | Document j => Ok j
  | NotJson => Raise JSONDecodeError
  end.

(** ** AddressBook

    The [data] of the UserDict: keys in insertion order, one entry per key,
    each entry its own Record object. *)

Definition AddressBook : Type := list (string * record).

(** [d[k] = v] *)
Fixpoint dict_set {A : Type} (k : string) (v : A) (d : list (string * A))
  : list (string * A) :=
  match d with
  | [] => [(k, v)]
  | (k', v') :: d' =>
      if (k' =? k)%string then (k, v) :: d' else (k', v') :: dict_set k v d'
  end.

Definition add_record (book : AddressBook) (r : record) : AddressBook :=
  dict_set (name r) r book.

(** [self.data.values()] *)
Definition values (book : AddressBook) : list record := map snd book.

(** The loop of [save_to_file] over [data["records"]].  Each element is the
    [__dict__] of a record of the book, so the assignment changes the
    record.  The book is returned as the loop leaves it. *)
Fixpoint stringify_birthdays (records : AddressBook) : result unit * AddressBook :=
  match records with
  | [] => (Ok tt, [])
  | (k, r) :: rest =>
      if birthday_truthy (birthday r) then
        match birthday_attr_value (birthday r) with
        | Ok value =>
            let r' := set_birthday r (BStr (strftime (dt_date value))) in
            let (res, rest') := stringify_birthdays rest in
            (res, (k, r') :: rest')
        | Raise e => (Raise e, records)
        end
      else
        let (res, rest') := stringify_birthdays rest in
        (res, (k, r) :: rest')
  end.

(** What [json.dump] makes of the attributes; an object it cannot
    serialize raises TypeError. *)
Definition phone_to_json (p : phone_item) : result json :=
  match p with
  | PStr s => Ok (JStr s)
  | PObj _ => Raise TypeError
  end.

Definition birthday_to_json (b : birthday_field) : result json :=
  match b with
  | BNone => Ok JNull
  | BStr s => Ok (JStr s)
  | BObj _ => Raise TypeError
  end.

Definition record_to_json (r : record) : result json :=
  ps <- mapM phone_to_json (phones r) ;;
  b <- birthday_to_json (birthday r) ;;
  Ok (JDict [("name", JStr (name r)); ("address", JStr (address r));
             ("phones", JList ps); ("emails", JList (map JStr (emails r)));
             ("birthday", b)]).

(** [save_to_file(filename)]: the outcome, the book and the files after the
    call.  The file is emptied when it is opened and filled by [json.dump]
    at the end. *)
Definition save_to_file (env : environment) (book : AddressBook) (filename : string)
    (fs : filesystem)
  : result unit * AddressBook * filesystem :=
  match open_write env fs filename with
  | Raise e => (Raise e, book, fs)
  | Ok fs1 =>
      let (res, book') := stringify_birthdays book in
      match res with
      | Raise e => (Raise e, book', fs1)
      | Ok _ =>
          match mapM record_to_json (values book') with
          | Ok records =>
              (Ok tt, book', write fs filename (Document (JDict [("records", JList records)])))
          | Raise e => (Raise e, book', fs1)
          end
      end
  end.

(** [datetime.strptime(v, "%Y-%m-%d")] refuses a value that is not a
    string. *)
Definition strptime_value (v : json) : result datetime :=
  match v with
  | JStr s => strptime s
  | _ => Raise TypeError
  end.

(** The body of the loop of [load_from_file]. *)
Definition load_record (now : datetime) (record_data : json) : result record :=
  n <- getitem record_data "name" ;;
  a <- getitem record_data "address" ;;
  ps <- getitem record_data "phones" ;;
  ps <- iter ps ;;
  phones <- mapM Phone_init ps ;;
  es <- getitem record_data "emails" ;;
  es <- iter es ;;
  emails <- mapM Email_init es ;;
  b <- getitem record_data "birthday" ;;
  birthday <-
    (if truthy b then
       value <- strptime_value b ;;
       bd <- Birthday_init now value ;;
       Ok (Some bd)
     else Ok None) ;;
  Record_init (mkName n) (mkAddress a) (map PObj phones) (Some emails) birthday.

Fixpoint load_records (now : datetime) (records : list json) (book : AddressBook)
  : result AddressBook :=
  match records with
  | [] => Ok book
  | record_data :: rest =>
      r <- load_record now record_data ;;
      load_records now rest (add_record book r)
  end.

Definition load_from_file (now : datetime) (filename : string) (fs : filesystem)
  : result AddressBook :=
  match (c <- open_read fs filename ;;
         data <- json_load c ;;
         records <- getitem data "records" ;;
         records <- iter records ;;
         load_records now records [])
  with
  | Raise FileNotFoundError => Ok []
  | res => res
  end.

(** [x in s] for the set of names, kept as a list. *)
Definition mem (x : string) (s : list string) : bool :=
  existsb (String.eqb x) s.

(** The loop over [record.phones] in [search_records]; [lower] is a method
    of strings only. *)
Fixpoint search_phones (query : string) (r : record) (ps : list phone_item)
    (found_records : list record) (found_record_names : list string)
  : result (list record * list string) :=
  match ps with
  | [] => Ok (found_records, found_record_names)
  | PObj _ :: _ => Raise AttributeError
  | PStr phone :: rest =>
      if contains query (lower phone) && negb (mem (name r) found_record_names)
      then search_phones query r rest (found_records ++ [r])%list
                         (name r :: found_record_names)
      else search_phones query r rest found_records found_record_names
  end.

(** The loop over [record.emails]: the first match appends and breaks. *)
Definition search_emails (query : string) (r : record)
    (found_records : list record) : list record :=
  if existsb (fun email => contains query (lower email)) (emails r)
  then (found_records ++ [r])%list
  else found_records.

Fixpoint search_loop (query : string) (records : list record)
    (found_records : list record) (found_record_names : list string)
  : result (list record) :=
  match records with
  | [] => Ok found_records
  | r :: rest =>
      let '(found1, names1) :=
        if contains query (lower (name r)) && negb (mem (name r) found_record_names)
        then ((found_records ++ [r])%list, name r :: found_record_names)
        else (found_records, found_record_names) in
      match search_phones query r (phones r) found1 names1 with
      | Raise e => Raise e
      | Ok (found2, names2) =>
          search_loop query rest (search_emails query r found2) names2
      end
  end.

Definition search_records (book : AddressBook) (query : string) : result (list record) :=
  search_loop (lower query) (values book) [] [].

(** The body of the loop of [get_upcoming_birthday_contacts] up to the day
    count: a birthday held as a string is replaced first.  The record is
    returned as the body leaves it, also when it raises. *)
Definition revive_birthday (now : datetime) (r : record) : result record :=
  match birthday r with
  | BStr s =>
      value <- strptime s ;;
      b <- Birthday_init now value ;;
      Ok (set_birthday r (BObj b))
  | _ => Ok r
  end.

Fixpoint upcoming_loop (now : datetime) (days : Z) (records : AddressBook)
    (upcoming_birthday_contacts : list record)
  : result (list record) * AddressBook :=
  match records with
  | [] => (Ok upcoming_birthday_contacts, [])
  | (k, r) :: rest =>
      if birthday_truthy (birthday r) then
        match revive_birthday now r with
        | Raise e => (Raise e, records)
        | Ok r1 =>
            match (value <- birthday_attr_value (birthday r1) ;;
                   days_left (dt_date now) value) with
            | Raise e => (Raise e, (k, r1) :: rest)
            | Ok n =>
                let acc := if n =? days
                           then (upcoming_birthday_contacts ++ [r1])%list
                           else upcoming_birthday_contacts in
                let (res, rest') := upcoming_loop now days rest acc in
                (res, (k, r1) :: rest')
            end
        end
      else
        let (res, rest') := upcoming_loop now days rest upcoming_birthday_contacts in
        (res, (k, r) :: rest')
  end.

Definition get_upcoming_birthday_contacts (now : datetime) (book : AddressBook) (days : Z)
  : result (list record) * AddressBook :=
  upcoming_loop now days book [].

(** ** Predicates of the statements *)

(** The element is a string. *)
Definition is_str (p : phone_item) : bool :=
  match p with
  | PStr _ => true
  | PObj _ => false
  end.

(** Every element of [phones] is a string: the state in which the
    constructor and every method of Record leave the attribute. *)
Definition str_phones (r : record) : bool := forallb is_str (phones r).

(** [str(x)] as an element of [phones]. *)
Definition as_str (p : phone_item) : phone_item := PStr (phone_str p).

(** The dict entry with its birthday as [save_to_file] leaves it. *)
Definition stringified (r : record) : record :=
  match birthday r with
  | BObj b => set_birthday r (BStr (strftime (dt_date (Birthday_value b))))
  | _ => r
  end.

Definition stringify_entry (kv : string * record) : string * record :=
  (fst kv, stringified (snd kv)).

(** The birthday is [None] or a [Birthday], not a string. *)
Definition birthday_is_date (r : record) : bool :=
  match birthday r with
  | BStr _ => false
  | _ => true
  end.

(** The body of the loop of [get_upcoming_birthday_contacts] does not raise
    on [r]. *)
Definition upcoming_body_ok (now : datetime) (r : record) : bool :=
  if birthday_truthy (birthday r) then
    is_ok (r1 <- revive_birthday now r ;;
           value <- birthday_attr_value (birthday r1) ;;
           days_left (dt_date now) value)
  else true.

(** The day count of a record that holds a [Birthday] is [days]. *)
Definition due_in (now : datetime) (days : Z) (r : record) : bool :=
  match birthday r with
  | BObj b =>
      match days_left (dt_date now) (Birthday_value b) with
      | Ok n => n =? days
      | Raise _ => false
      end
  | _ => false
  end.

(** The dict that [json.dump] writes for a record after the loop. *)
Definition saved_birthday (r : record) : json :=
  match birthday r with
  | BNone => JNull
  | BObj b => JStr (strftime (dt_date (Birthday_value b)))
  | BStr s => JStr s
  end.

Definition saved_record (r : record) : json :=
  JDict [("name", JStr (name r)); ("address", JStr (address r));
         ("phones", JList (map JStr (map phone_str (phones r))));
         ("emails", JList (map JStr (emails r)));
         ("birthday", saved_birthday r)].

(** What a save leaves at [filename] when the phones are strings. *)
Definition saved_document (book : AddressBook) : json :=
  JDict [("records", JList (map saved_record (values book)))].




(** The phone shapes as the specification writes them: [N] stands for a
    digit, any other character for itself. *)
Fixpoint matches_template (t s : string) : bool :=
  match t, s with
  | EmptyString, EmptyString => true
  | String a t', String c s' =>
      (if Ascii.eqb a "N" then is_digit c else Ascii.eqb c a)
      && matches_template t' s'
  | _, _ => false
  end.

Definition phone_shapes : list string :=
  ["+NN-NNN-NNNNNNN"; "+NNNNNNNNNNNN"; "NNN-NNNNNNN"; "NNNNNNNNNN"].

Definition matches_shape (s : string) : bool :=
  existsb (fun t => matches_template t s) phone_shapes.

Definition newline : string := String "010" EmptyString.

(** The template, or the template and a newline after it. *)
Definition matches_template_nl (t s : string) : bool :=
  matches_template t s || matches_template (t ++ newline) s.

Fixpoint has_newline (s : string) : bool :=
  match s with
  | EmptyString => false
  | String c s' => Ascii.eqb c "010" || has_newline s'
  end.

(** The invariants of the library's values: a [date] is a day of the
    calendar, a [datetime] has its time within the day. *)
Definition valid_date (d : date) : bool :=
  (MINYEAR <=? year d) && (year d <=? MAXYEAR) && (1 <=? month d) && (month d <=? 12)
  && (1 <=? day d) && (day d <=? days_in_month (year d) (month d)).

Definition valid_datetime (t : datetime) : bool :=
  valid_date (dt_date t) && (0 <=? dt_time t) && (dt_time t <? 86400000000).

(** No character of [s] is in the set. *)
Fixpoint free_of (items : list cclass) (s : string) : bool :=
  match s with
  | EmptyString => true
  | String c s' => negb (in_set items c) && free_of items s'
  end.

(** A record as [Record(...)] returns it at time [now], from a name, an
    address, phones, and emails and a birthday that their constructors have
    accepted. *)
Definition constructed (now : datetime) (r : record) : Prop :=
  exists n a ps es b,
    Record_init n a ps es b = Ok r
    /\ match es with
       | Some l => Forall (fun e => Email_init (JStr (Email_value e)) = Ok e) l
       | None => True
       end
    /\ match b with
       | Some o => valid_datetime (Birthday_value o) = true
                   /\ Birthday_init now (Birthday_value o) = Ok o
       | None => True
       end.

(** A book filled by [add_record] with such records: every record under
    its name, one entry per name. *)
Definition constructed_book (now : datetime) (book : AddressBook) : Prop :=
  NoDup (map fst book)
  /\ Forall (fun kv => fst kv = name (snd kv) /\ constructed now (snd kv)) book.

(** The record that comes back from the file when [r] was saved: the
    birthday is the midnight of its date. *)
Definition reloaded (r : record) : record :=
  match birthday r with
  | BObj b => set_birthday r (BObj (mkBirthday (mkDatetime (dt_date (Birthday_value b)) 0)))
  | _ => r
  end.

(** Equal field for field, the birthdays as dates. *)
Definition same_birthday (b b' : birthday_field) : Prop :=
  match b, b' with
  | BNone, BNone => True
  | BObj x, BObj y => dt_date (Birthday_value x) = dt_date (Birthday_value y)
  | _, _ => False
  end.

Definition same_fields (r r' : record) : Prop :=
  name r = name r' /\ address r = address r' /\ phones r = phones r'
  /\ emails r = emails r' /\ same_birthday (birthday r) (birthday r').

(** A phone as the constructor stores it: a valid phone without a
    separator in it. *)
Definition stored_phone (p : phone_item) : bool :=
  match p with
  | PStr s => validate_phone s && free_of phone_separators s
  | PObj _ => false
  end.

(** The state of a record that the constructor has returned at [now]. *)
Definition storable (now : datetime) (r : record) : Prop :=
  forallb stored_phone (phones r) = true
  /\ forallb validate_email (emails r) = true
  /\ match birthday r with
     | BNone => True
     | BObj b => valid_datetime (Birthday_value b) = true
                 /\ validate_birthday now (Birthday_value b) = true
     | BStr _ => False
     end.

Definition reload_entry (kv : string * record) : string * record :=
  (fst kv, reloaded (snd kv)).

(** The birthday of the record, if it has one, is in the year 1000 or
    later: [%Y] prints its year on four digits. *)
Definition four_digit_year (r : record) : bool :=
  match birthday r with
  | BObj b => 1000 <=? year (dt_date (Birthday_value b))
  | _ => true
  end.

(** The computation does not raise FileNotFoundError. *)
Definition found {A : Type} (c : result A) : Prop := c <> Raise FileNotFoundError.

(** The day of the year of [d], from 1. *)
Definition day_of_year (d : date) : Z := days_before_month (year d) (month d) + day d.

(** The record of the scenario of the specification. *)
Definition ann_birthday : Birthday := mkBirthday (mkDatetime (mkDate 2000 5 1) 0).

Definition ann : record :=
  mkRecord "Ann" "Main St" [PStr "380-1234567"] ["ann@x.com"] (BObj ann_birthday).

(** A record with a birthday in the year 999, what the menu builds from
    the birthday 0999-05-01. *)
Definition eve_birthday : Birthday := mkBirthday (mkDatetime (mkDate 999 5 1) 0).

Definition eve : record :=
  mkRecord "Eve" "Old St" [PStr "380-7654321"] ["eve@x.com"] (BObj eve_birthday).

(** A birthday on 29 February 2000, read on 1 January 2023. *)
Definition leap_birthday : Birthday := mkBirthday (mkDatetime (mkDate 2000 2 29) 0).
Definition new_year_2023 : datetime := mkDatetime (mkDate 2023 1 1) 0.

(** The record of the scenario after a save, and the day of the reading. *)
Definition ann_saved : record := set_birthday ann (BStr "2000-05-01").
Definition november_2026 : datetime := mkDatetime (mkDate 2026 11 4) 0.



Local Open Scope string_scope.

(** ** The language of a pattern

    [rm n r s s']: the pattern [r] matches the front of [s] and leaves
    [s'], in a subject of length [n].  The relation says what [rmatch]
    searches for. *)
Inductive rm (n : nat) : regex -> string -> string -> Prop :=
| rm_bol s : String.length s = n -> rm n RBol s s
| rm_eol_end : rm n REol EmptyString EmptyString
| rm_eol_newline : rm n REol newline newline
| rm_set items c s : in_set items c = true -> rm n (RSet items) (String c s) s
| rm_seq r1 r2 s s1 s2 :
    rm n r1 s s1 -> rm n r2 s1 s2 -> rm n (RSeq r1 r2) s s2
| rm_rep0 r s : rm n (RRep 0 r) s s
| rm_repS m r s s1 s2 :
    rm n r s s1 -> rm n (RRep m r) s1 s2 -> rm n (RRep (S m) r) s s2
| rm_plus1 r s s1 : rm n r s s1 -> rm n (RPlus r) s s1
| rm_plusS r s s1 s2 :
    rm n r s s1 -> (String.length s1 < String.length s)%nat ->
    rm n (RPlus r) s1 s2 -> rm n (RPlus r) s s2.

(** Every character of [s] is in the set. *)
Fixpoint all_in (items : list cclass) (s : string) : bool :=
  match s with
  | EmptyString => true
  | String c s' => in_set items c && all_in items s'
  end.

Fixpoint count_char (c : ascii) (s : string) : nat :=
  match s with
  | EmptyString => O
  | String d s' => (if Ascii.eqb d c then 1 else 0) + count_char c s'
  end.

(** The set [[\w\.-]] and the group [\.\w+] of the email pattern. *)
Definition email_chars : list cclass := [CWord; CChar "."; CChar "-"].

Definition dot_word : regex := RSeq (lit ".") (RPlus (RSet [CWord])).

Fixpoint has_char (c : ascii) (s : string) : bool :=
  match s with
  | EmptyString => false
  | String d s' => Ascii.eqb d c || has_char c s'
  end.

Local Open Scope Z_scope.

Local Open Scope string_scope.

(** ** Rendering

    [Record.__str__], with [Birthday.__str__] for the birthday line;
    [', '.join] refuses an element that is not a string, and a birthday
    held as a string is formatted as itself. *)

Fixpoint join (sep : string) (l : list string) : string :=
  match l with
  | [] => EmptyString
  | [x] => x
  | x :: l' => x ++ sep ++ join sep l'
  end.

(** An element of [phones] as [join] takes it. *)
Definition phone_text (p : phone_item) : result string :=
  match p with
  | PStr s => Ok s
  | PObj _ => Raise TypeError
  end.

(** [f"{self.birthday}"] *)
Definition birthday_text (b : birthday_field) : string :=
  match b with
  | BNone => "None"
  | BObj o => strftime (dt_date (Birthday_value o))
  | BStr s => s
  end.

(** ["-" * 30] *)
Definition dashes : string := "------------------------------".

Definition Record_str (r : record) : result string :=
  ps <- mapM phone_text (phones r) ;;
  Ok ("Name: " ++ name r ++ newline
      ++ "Address: " ++ address r ++ newline
      ++ "Phones: " ++ join ", " ps ++ newline
      ++ "Emails: " ++ join ", " (emails r) ++ newline
      ++ (if birthday_truthy (birthday r)
          then "Birthday: " ++ birthday_text (birthday r) ++ newline
          else "")
      ++ dashes).

(** ** InMemoryDataStorage

    The dict of the storage, with string keys as in the address book. *)

Definition InMemoryDataStorage (V : Type) : Type := list (string * V).

(** [key in d] *)
Definition dict_has {A : Type} (k : string) (d : list (string * A)) : bool :=
  match assoc k d with
  | Some _ => true
  | None => false
  end.

(** [del d[k]] for a key that is there. *)
Fixpoint dict_del {A : Type} (k : string) (d : list (string * A)) : list (string * A) :=
  match d with
  | [] => []
  | (k', v) :: d' => if (k' =? k) then d' else (k', v) :: dict_del k d'
  end.

Definition storage_init {V : Type} : InMemoryDataStorage V := [].

Definition storage_add {V : Type} (s : InMemoryDataStorage V) (key : string) (value : V)
  : InMemoryDataStorage V :=
  dict_set key value s.

(** [self.data.get(key)]: [None] for a key that is not there. *)
Definition storage_get {V : Type} (s : InMemoryDataStorage V) (key : string) : option V :=
  assoc key s.

Definition storage_delete {V : Type} (s : InMemoryDataStorage V) (key : string)
  : InMemoryDataStorage V :=
  if dict_has key s then dict_del key s else s.

(** ** The menu

    [AddressBook.iterator], and the two branches of [main] that change the
    set of contacts: the body of choice 1 once the five answers are read,
    and choice 3.  What [user_view.show] is given is returned as a list of
    lines. *)

Definition iterator (book : AddressBook) : list record := values book.

Definition add_contact (now : datetime) (book : AddressBook)
    (name address phone email birthday : string)
  : result (list string) * AddressBook :=
  if negb (name =? "") && negb (address =? "") && negb (phone =? "")
     && negb (email =? "") && negb (birthday =? "") then
    match (let name_field := mkName (JStr name) in
           let address_field := mkAddress (JStr address) in
           phone_field <- Phone_init (JStr phone) ;;
           email_field <- Email_init (JStr email) ;;
           value <- strptime birthday ;;
           birthday_field <- Birthday_init now value ;;
           Record_init name_field address_field [PObj phone_field]
                       (Some [email_field]) (Some birthday_field))
    with
    | Ok record =>
        (Ok ["Contact " ++ name ++ " added successfully!"], add_record book record)
    | Raise (ValueError e) =>
        (Ok ["Error: " ++ e; "Please enter valid data."], book)
    | Raise e => (Raise e, book)
    end
  else
    (Ok ["All fields are required. Please try again or enter '0' to cancel."], book).

Definition delete_contact (book : AddressBook) (name : string)
  : list string * AddressBook :=
  if dict_has name book
  then (["Contact " ++ name ++ " deleted successfully!"], dict_del name book)
  else ([], book).

(** ** Predicates of the further statements *)

(** The query is in the name or in a phone of the record; in an email. *)
Definition name_or_phone_match (query : string) (r : record) : bool :=
  contains query (lower (name r))
  || existsb (fun p => contains query (lower (phone_str p))) (phones r).

Definition email_match (query : string) (r : record) : bool :=
  existsb (fun email => contains query (lower email)) (emails r).

(** What one record adds to the result of a search. *)
Definition search_hits (query : string) (r : record) : list record :=
  (if name_or_phone_match query r then [r] else [])
  ++ (if email_match query r then [r] else []).

(** The fields that neither a save nor the birthday query touches. *)
Definition same_but_birthday (r r' : record) : Prop :=
  name r = name r' /\ address r = address r' /\ phones r = phones r'
  /\ emails r = emails r'.

Local Open Scope Z_scope.

(** The entry has its key and all but its birthday; and an entry whose
    birthday was not a string is the same entry. *)
Definition same_entry (kv kv' : string * record) : Prop :=
  fst kv = fst kv' /\ same_but_birthday (snd kv) (snd kv').

Definition kept_entry (kv kv' : string * record) : Prop :=
  same_entry kv kv' /\ (birthday_is_date (snd kv) = true -> kv' = kv).

(** The book of the scenario, and the file a save of it leaves. *)
Definition ann_book : AddressBook := [("Ann", ann)].

Definition ann_file : filesystem :=
  write (fun _ => None) "book.json" (Document (saved_document ann_book)).

(** * Properties *)

Local Open Scope list_scope.

Arguments validate_phone value : simpl never.
Arguments validate_email value : simpl never.
Arguments re_split items s : simpl never.
Arguments strftime d : simpl never.
Arguments strptime s : simpl never.

(** ** Record keeps its phones as strings *)

Lemma map_as_str_id (ps : list phone_item) :
  forallb is_str ps = true -> map as_str ps = ps.
Proof.
  induction ps as [|p ps IH]; simpl; intros H; [reflexivity|].
  apply andb_true_iff in H as [Hp Hps].
  destruct p; [|discriminate]. simpl. unfold as_str at 1. simpl.
  now rewrite IH.
Qed.

Lemma forallb_is_str_as_str (ps : list phone_item) :
  forallb is_str (map as_str ps) = true.
Proof. induction ps; simpl; auto. Qed.

Lemma process_numbers_str (l : list string) (out : list phone_item) :
  process_numbers l = Ok out -> forallb is_str out = true.
Proof.
  revert out. induction l as [|x l IH]; simpl; intros out H.
  - injection H as <-. reflexivity.
  - destruct (validate_phone x) eqn:Hv; [|discriminate].
    simpl in H.
    destruct (process_numbers l) as [ps|e]; [|discriminate].
    simpl in H. injection H as <-. simpl. now apply IH.
Qed.

Lemma process_phones_str (l out : list phone_item) :
  process_phones l = Ok out -> forallb is_str out = true.
Proof.
  revert out. induction l as [|x l IH]; simpl; intros out H.
  - injection H as <-. reflexivity.
  - destruct (process_numbers _) as [ps|e] eqn:Hn; [|discriminate].
    simpl in H. destruct (process_phones l) as [ps'|e]; [|discriminate].
    simpl in H. injection H as <-.
    rewrite forallb_app. rewrite (process_numbers_str _ _ Hn). now rewrite IH.
Qed.

Lemma Record_init_str_phones n a ps es b (r : record) :
  Record_init n a ps es b = Ok r -> str_phones r = true.
Proof.
  unfold Record_init. intros H.
  destruct (str_of_value (Name_value n)); [|discriminate].
  destruct (str_of_value (Address_value a)); [|discriminate].
  simpl in H. destruct (process_phones ps) as [out|e] eqn:Hp; [|discriminate].
  simpl in H. injection H as <-. unfold str_phones. simpl.
  exact (process_phones_str _ _ Hp).
Qed.

Lemma add_phone_str_phones (r : record) (phone : json) :
  str_phones r = true -> str_phones (snd (add_phone r phone)) = true.
Proof.
  intros H. unfold add_phone.
  destruct (Phone_init phone) as [p|e]; simpl.
  - unfold str_phones, update_record_phones. simpl.
    apply (forallb_is_str_as_str (phones r ++ [PObj p])).
  - destruct e; exact H.
Qed.

Lemma replace_first_str ps old_phone new_phone out :
  forallb is_str ps = true ->
  replace_first ps old_phone new_phone = Some out -> forallb is_str out = true.
Proof.
  revert out. induction ps as [|p ps IH]; simpl; intros out H E; [discriminate|].
  apply andb_true_iff in H as [Hp Hps].
  destruct (phone_eq_str p old_phone).
  - injection E as <-. simpl. exact Hps.
  - destruct (replace_first ps old_phone new_phone) as [out'|]; [|discriminate].
    injection E as <-. simpl. rewrite Hp. now apply IH.
Qed.

Lemma edit_phone_str_phones (r : record) (old_phone new_phone : string) :
  str_phones r = true -> str_phones (snd (edit_phone r old_phone new_phone)) = true.
Proof.
  intros H. unfold edit_phone.
  destruct (replace_first _ _ _) as [ps|] eqn:E; simpl; [|exact H].
  exact (replace_first_str _ _ _ _ H E).
Qed.

(** ** delete_phone *)

Lemma phones_without_str (ps : list phone_item) (phone : string) :
  forallb is_str ps = true -> ps <> [] ->
  phones_without ps phone = Raise AttributeError.
Proof.
  destruct ps as [|p ps]; [congruence|]. simpl. intros H _.
  apply andb_true_iff in H as [Hp _]. destruct p; [reflexivity|discriminate].
Qed.

(** C1 (the code departs from it).  [delete_phone] reads [p.value] of every
    stored entry, and the entries are strings: on every record that holds a
    phone, whatever the argument, the call raises AttributeError and the
    record stays as it was.  Nothing is removed, and an absent phone is not
    a silent no-op. *)
Theorem delete_phone_raises_AttributeError (r : record) (phone : string) :
  str_phones r = true -> phones r <> [] ->
  delete_phone r phone = (Raise AttributeError, r).
Proof.
  intros Hs Hne. unfold delete_phone.
  now rewrite (phones_without_str _ phone Hs Hne).
Qed.

Lemma ann_constructed :
  Record_init (mkName (JStr "Ann")) (mkAddress (JStr "Main St"))
              [PObj (mkPhone "380-1234567")] (Some [mkEmail "ann@x.com"])
              (Some ann_birthday) = Ok ann.
Proof. vm_compute. reflexivity. Qed.

Lemma delete_phone_raises_AttributeError_witness :
  delete_phone ann "380-1234567" = (Raise AttributeError, ann)
  /\ delete_phone ann "0000000000" = (Raise AttributeError, ann).
Proof.
  split; apply delete_phone_raises_AttributeError;
    solve [reflexivity | discriminate].
Defined.

(** Only a record without phones goes through. *)
Lemma delete_phone_no_phones (r : record) (phone : string) :
  phones r = [] -> delete_phone r phone = (Ok tt, set_phones r []).
Proof. intros H. unfold delete_phone. now rewrite H. Qed.

(** ** add_phone *)

(** C5.  On a string [p], [add_phone] returns a message and raises
    nothing.  When [p] is a valid phone the message is the success message
    and the phones are the former ones, each as a string, followed by [p];
    otherwise the message is the error message and the record is the one
    before the call. *)
Theorem add_phone_returns_message (r : record) (p : string) :
  add_phone r (JStr p) =
  if validate_phone p
  then (Ok ("Phone number " ++ p ++ " added for " ++ name r)%string,
        set_phones r (map as_str (phones r) ++ [PStr p]))
  else (Ok "Error: Invalid phone number", r).
Proof.
  unfold add_phone, Phone_init. destruct (validate_phone p); [|reflexivity].
  unfold update_record_phones, set_phones. simpl.
  rewrite map_app. reflexivity.
Qed.

(** On a record whose phones are strings the valid case is an append. *)
Lemma add_phone_appends (r : record) (p : string) :
  str_phones r = true -> validate_phone p = true ->
  phones (snd (add_phone r (JStr p))) = (phones r ++ [PStr p])%list.
Proof.
  intros Hs Hv. rewrite add_phone_returns_message, Hv. simpl.
  now rewrite (map_as_str_id _ Hs).
Qed.

Lemma add_phone_invalid_unchanged (r : record) (p : string) :
  validate_phone p = false -> snd (add_phone r (JStr p)) = r.
Proof. intros Hv. now rewrite add_phone_returns_message, Hv. Qed.

(** The scenario of the specification. *)
Example add_phone_scenario :
  let (msg1, r1) := add_phone ann (JStr "0000000000") in
  let (msg2, r2) := add_phone r1 (JStr "bad") in
  msg1 = Ok "Phone number 0000000000 added for Ann"
  /\ phones r1 = [PStr "380-1234567"; PStr "0000000000"]
  /\ msg2 = Ok "Error: Invalid phone number"
  /\ phones r2 = [PStr "380-1234567"; PStr "0000000000"].
Proof. vm_compute. repeat split. Qed.

(** ** search_records *)

Lemma mem_head (x : string) (s : list string) : mem x (x :: s) = true.
Proof. unfold mem. simpl. now rewrite String.eqb_refl. Qed.

(** Once the name is in the set, the loop over the phones adds nothing. *)
Lemma search_phones_seen query (r : record) ps found names :
  forallb is_str ps = true -> mem (name r) names = true ->
  search_phones query r ps found names = Ok (found, names).
Proof.
  intros Hs Hm. induction ps as [|p ps IH]; simpl; [reflexivity|].
  simpl in Hs. apply andb_true_iff in Hs as [Hp Hps].
  destruct p; [|discriminate]. rewrite Hm. simpl.
  rewrite andb_false_r. now apply IH.
Qed.

(** C4 (the code departs from it).  The loop over the emails appends
    without looking at the set of names that guards the other two paths: a
    record matched by its name and by one of its emails is returned twice. *)
Theorem search_records_name_and_email_twice (k : string) (r : record) (query : string) :
  str_phones r = true ->
  contains (lower query) (lower (name r)) = true ->
  existsb (fun email => contains (lower query) (lower email)) (emails r) = true ->
  search_records [(k, r)] query = Ok [r; r].
Proof.
  intros Hs Hn He. unfold search_records, values. simpl.
  rewrite Hn. simpl.
  rewrite (search_phones_seen _ _ _ _ _ Hs (mem_head (name r) [])).
  unfold search_emails. now rewrite He.
Qed.

Lemma search_records_name_and_email_twice_witness :
  search_records [("Ann", ann)] "ANN" = Ok [ann; ann].
Proof.
  apply search_records_name_and_email_twice; reflexivity.
Defined.

(** The property of the specification that does not involve an email: one
    record named "John Smith", found once whatever the case of the query. *)
Example search_records_smith :
  let john := mkRecord "John Smith" "Elm St" [PStr "0000000000"] [] BNone in
  search_records [("John Smith", john)] "smith" = Ok [john]
  /\ search_records [("John Smith", john)] "SMITH" = Ok [john].
Proof. vm_compute. split; reflexivity. Qed.

(** ** days_to_birthday *)

Lemma datetime_ymd_no_leap_day (y : Z) :
  is_leap y = false ->
  datetime_ymd y 2 29 = Raise (ValueError "date value out of range").
Proof.
  intros H. unfold datetime_ymd, days_in_month. simpl. rewrite H. simpl.
  now rewrite !andb_false_r.
Qed.

(** C7 (the code departs from it).  The next occurrence is built with
    [datetime(today.year, month, day)], a date that does not exist for a
    birthday on 29 February when the current year is not a leap year: the
    call raises ValueError instead of returning a number of days. *)
Theorem days_to_birthday_leap_day_raises (now : datetime) (r : record) (b : Birthday) :
  birthday r = BObj b ->
  month (dt_date (Birthday_value b)) = 2 ->
  day (dt_date (Birthday_value b)) = 29 ->
  is_leap (year (dt_date now)) = false ->
  exists msg, days_to_birthday now r = Raise (ValueError msg).
Proof.
  intros Hb Hm Hd Hl. unfold days_to_birthday, days_left.
  rewrite Hb. simpl. rewrite Hm, Hd, (datetime_ymd_no_leap_day _ Hl).
  simpl. eauto.
Qed.

Lemma leap_birthday_constructed :
  strptime "2000-02-29" = Ok (Birthday_value leap_birthday)
  /\ Birthday_init new_year_2023 (Birthday_value leap_birthday) = Ok leap_birthday.
Proof. vm_compute. split; reflexivity. Qed.

Lemma days_to_birthday_leap_day_raises_witness :
  exists msg,
    days_to_birthday new_year_2023 (set_birthday ann (BObj leap_birthday))
    = Raise (ValueError msg).
Proof.
  apply (days_to_birthday_leap_day_raises new_year_2023
           (set_birthday ann (BObj leap_birthday)) leap_birthday);
    reflexivity.
Defined.

Lemma days_to_birthday_no_birthday (now : datetime) (r : record) :
  birthday r = BNone -> days_to_birthday now r = Ok None.
Proof. intros H. unfold days_to_birthday. now rewrite H. Qed.

(** ** get_upcoming_birthday_contacts *)

(** C8 (the code departs from it).  The day count is computed as in
    [days_to_birthday], with the same missing case: a record with a
    birthday on 29 February makes the query raise ValueError in a year that
    is not a leap year, whatever [days] is, instead of returning the
    records that match. *)
Theorem get_upcoming_birthday_contacts_leap_day_raises
    (now : datetime) (k : string) (r : record) (b : Birthday)
    (rest : AddressBook) (days : Z) :
  birthday r = BObj b ->
  month (dt_date (Birthday_value b)) = 2 ->
  day (dt_date (Birthday_value b)) = 29 ->
  is_leap (year (dt_date now)) = false ->
  exists msg,
    get_upcoming_birthday_contacts now ((k, r) :: rest) days
    = (Raise (ValueError msg), (k, r) :: rest).
Proof.
  intros Hb Hm Hd Hl. unfold get_upcoming_birthday_contacts. simpl.
  unfold revive_birthday, days_left. rewrite Hb. simpl.
  rewrite Hb. simpl. rewrite Hm, Hd, (datetime_ymd_no_leap_day _ Hl).
  simpl. eauto.
Qed.

Lemma get_upcoming_birthday_contacts_leap_day_raises_witness :
  exists msg,
    get_upcoming_birthday_contacts new_year_2023
      [("Ann", set_birthday ann (BObj leap_birthday))] 59
    = (Raise (ValueError msg), [("Ann", set_birthday ann (BObj leap_birthday))]).
Proof.
  apply (get_upcoming_birthday_contacts_leap_day_raises new_year_2023 "Ann"
           (set_birthday ann (BObj leap_birthday)) leap_birthday []);
    reflexivity.
Defined.

(** Where every birthday is [None] or a [Birthday] and every day count can
    be computed, the query returns the records whose count is [days], in
    the order of the book, and leaves the book as it was. *)
Lemma upcoming_loop_exact (now : datetime) (days : Z) (book : AddressBook) acc :
  forallb (fun kv => birthday_is_date (snd kv)) book = true ->
  forallb (fun kv => upcoming_body_ok now (snd kv)) book = true ->
  upcoming_loop now days book acc
  = (Ok (acc ++ filter (due_in now days) (values book))%list, book).
Proof.
  revert acc. induction book as [|[k r] book IH]; simpl; intros acc Hd Hok.
  - now rewrite app_nil_r.
  - apply andb_true_iff in Hd as [Hd Hds]. apply andb_true_iff in Hok as [Hok Hoks].
    unfold birthday_is_date in Hd. unfold upcoming_body_ok, revive_birthday in Hok.
    unfold revive_birthday, due_in.
    destruct (birthday r) as [|b|s] eqn:Hb; simpl in *; [|rewrite Hb; simpl|discriminate].
    + rewrite (IH acc Hds Hoks). reflexivity.
    + rewrite Hb in Hok. simpl in Hok.
      destruct (days_left (dt_date now) (Birthday_value b)) as [n|e]; [|discriminate].
      destruct (n =? days); rewrite (IH _ Hds Hoks); [|reflexivity].
      simpl. now rewrite <- app_assoc.
Qed.

Lemma get_upcoming_birthday_contacts_exact (now : datetime) (book : AddressBook) (days : Z) :
  forallb (fun kv => birthday_is_date (snd kv)) book = true ->
  forallb (fun kv => upcoming_body_ok now (snd kv)) book = true ->
  get_upcoming_birthday_contacts now book days
  = (Ok (filter (due_in now days) (values book)), book).
Proof.
  intros Hd Hok. unfold get_upcoming_birthday_contacts.
  now rewrite (upcoming_loop_exact now days book [] Hd Hok).
Qed.

(** The loop over a book in two parts: when the body raises on no record
    of the first part, the second part is run with what the first has
    collected. *)
Lemma upcoming_loop_app (now : datetime) (days : Z) (pre : AddressBook) acc :
  forallb (fun kv => upcoming_body_ok now (snd kv)) pre = true ->
  exists acc' pre',
    List.length pre' = List.length pre
    /\ forall post,
         upcoming_loop now days (pre ++ post)%list acc
         = (fst (upcoming_loop now days post acc'),
            (pre' ++ snd (upcoming_loop now days post acc'))%list).
Proof.
  revert acc. induction pre as [|[k r] pre IH]; simpl; intros acc Hok.
  - exists acc, []. split; [reflexivity|]. intros p. simpl.
    now destruct (upcoming_loop now days p acc).
  - apply andb_true_iff in Hok as [Hok Hoks]. unfold upcoming_body_ok in Hok.
    destruct (birthday_truthy (birthday r)).
    + destruct (revive_birthday now r) as [r1|e]; [|discriminate]. simpl in Hok.
      destruct (birthday_attr_value (birthday r1)) as [v|e]; [|discriminate].
      simpl in Hok. simpl.
      destruct (days_left (dt_date now) v) as [n|e]; [|discriminate].
      destruct (IH (if n =? days then (acc ++ [r1])%list else acc) Hoks)
        as (acc' & pre' & Hlen & Heq).
      exists acc', ((k, r1) :: pre'). split; [simpl; now rewrite Hlen|].
      intros p. rewrite (Heq p). simpl. reflexivity.
    + destruct (IH acc Hoks) as (acc' & pre' & Hlen & Heq).
      exists acc', ((k, r) :: pre'). split; [simpl; now rewrite Hlen|].
      intros p. rewrite (Heq p). simpl. reflexivity.
Qed.

Lemma strptime_nonempty (s : string) (value : datetime) :
  strptime s = Ok value -> (s =? "")%string = false.
Proof. destruct s; [discriminate|reflexivity]. Qed.

(** C10.  A record that holds its birthday as a string which parses to a
    valid birthday is given that [Birthday] before its day count is taken:
    when the loop gets to the record, the query ends as it does on the book
    where the record already holds the [Birthday], and the book it leaves
    has the record with the [Birthday] in the same place. *)
Theorem get_upcoming_birthday_contacts_revives_string
    (now : datetime) (days : Z) (pre post : AddressBook)
    (k : string) (r : record) (s : string) (value : datetime) :
  birthday r = BStr s ->
  strptime s = Ok value ->
  validate_birthday now value = true ->
  forallb (fun kv => upcoming_body_ok now (snd kv)) pre = true ->
  let r' := set_birthday r (BObj (mkBirthday value)) in
  get_upcoming_birthday_contacts now (pre ++ (k, r) :: post)%list days
  = get_upcoming_birthday_contacts now (pre ++ (k, r') :: post)%list days
  /\ exists pre' post',
       snd (get_upcoming_birthday_contacts now (pre ++ (k, r) :: post)%list days)
       = (pre' ++ (k, r') :: post')%list
       /\ List.length pre' = List.length pre.
Proof.
  intros Hb Hs Hv Hpre r'. unfold get_upcoming_birthday_contacts.
  destruct (upcoming_loop_app now days pre [] Hpre) as (acc & pre' & Hlen & Heq).
  rewrite (Heq ((k, r) :: post)), (Heq ((k, r') :: post)).
  assert (Hstep : upcoming_loop now days ((k, r) :: post) acc
                  = upcoming_loop now days ((k, r') :: post) acc
                  /\ exists post', snd (upcoming_loop now days ((k, r) :: post) acc)
                                   = (k, r') :: post').
  { simpl. unfold revive_birthday. rewrite Hb. simpl.
    rewrite (strptime_nonempty _ _ Hs). simpl. rewrite Hs. simpl.
    unfold Birthday_init. rewrite Hv. simpl. fold r'.
    destruct (days_left (dt_date now) value) as [n|e]; [|simpl; eauto].
    destruct (upcoming_loop now days post _) as [res post'] eqn:E.
    simpl. eauto. }
  destruct Hstep as [Hsame (post' & Hsnd)].
  rewrite Hsame in Hsnd |- *. split; [reflexivity|].
  exists pre', post'. cbn [snd]. rewrite Hsnd. auto.
Qed.

Lemma get_upcoming_birthday_contacts_revives_string_witness :
  get_upcoming_birthday_contacts november_2026 ([] ++ [("Ann", ann_saved)]) 178
  = get_upcoming_birthday_contacts november_2026 ([] ++ [("Ann", ann)]) 178
  /\ exists pre' post',
       snd (get_upcoming_birthday_contacts november_2026 ([] ++ [("Ann", ann_saved)]) 178)
       = pre' ++ ("Ann", ann) :: post'
       /\ List.length pre' = List.length (@nil (string * record)).
Proof.
  apply (get_upcoming_birthday_contacts_revives_string november_2026 178 [] []
           "Ann" ann_saved "2000-05-01" (mkDatetime (mkDate 2000 5 1) 0));
    reflexivity.
Defined.

Example get_upcoming_birthday_contacts_after_save :
  get_upcoming_birthday_contacts november_2026 [("Ann", ann_saved)] 178
  = (Ok [ann], [("Ann", ann)])
  /\ get_upcoming_birthday_contacts november_2026 [("Ann", ann_saved)] 177
     = (Ok [], [("Ann", ann)]).
Proof. vm_compute. split; reflexivity. Qed.

(** ** save_to_file *)

Lemma strftime_nonempty (d : date) : (strftime d =? "")%string = false.
Proof.
  unfold strftime, year_text.
  destruct (year d <? 10); [reflexivity|].
  destruct (year d <? 100); [reflexivity|].
  destruct (year d <? 1000); reflexivity.
Qed.

(** With no birthday held as a string, the loop runs to its end and turns
    every [Birthday] into its rendering. *)
Lemma stringify_birthdays_dates (book : AddressBook) :
  forallb (fun kv => birthday_is_date (snd kv)) book = true ->
  stringify_birthdays book = (Ok tt, map stringify_entry book).
Proof.
  induction book as [|[k r] book IH]; simpl; intros H; [reflexivity|].
  apply andb_true_iff in H as [Hr Hbook]. rewrite (IH Hbook).
  unfold stringify_entry, stringified, birthday_is_date in *. simpl.
  destruct (birthday r); simpl; [reflexivity|reflexivity|discriminate].
Qed.

(** On the book the loop has been over, it stops at the first rendering
    and leaves the book as it is. *)
Lemma stringify_birthdays_again (book : AddressBook) :
  forallb (fun kv => birthday_is_date (snd kv)) book = true ->
  existsb (fun kv => birthday_truthy (birthday (snd kv))) book = true ->
  stringify_birthdays (map stringify_entry book)
  = (Raise AttributeError, map stringify_entry book).
Proof.
  induction book as [|[k r] book IH]; intros H E; [discriminate|].
  cbn [forallb existsb snd] in H, E.
  apply andb_true_iff in H as [Hr Hbook]. unfold birthday_is_date in Hr.
  cbn [map]. change (stringify_entry (k, r)) with (k, stringified r).
  unfold stringified. cbn [stringify_birthdays].
  destruct (birthday r) as [|b|s] eqn:Hb; [| |discriminate].
  - rewrite Hb. simpl in E |- *. now rewrite (IH Hbook E).
  - cbn [birthday set_birthday birthday_truthy]. now rewrite strftime_nonempty.
Qed.

Lemma mapM_phone_to_json (ps : list phone_item) :
  forallb is_str ps = true -> mapM phone_to_json ps = Ok (map JStr (map phone_str ps)).
Proof.
  induction ps as [|p ps IH]; simpl; intros H; [reflexivity|].
  apply andb_true_iff in H as [Hp Hps]. destruct p; [|discriminate].
  simpl. now rewrite (IH Hps).
Qed.

Lemma record_to_json_stringified (r : record) :
  str_phones r = true -> record_to_json (stringified r) = Ok (saved_record r).
Proof.
  intros Hs. unfold record_to_json, stringified, saved_record, saved_birthday.
  destruct (birthday r) eqn:Hb; simpl; rewrite ?Hb, (mapM_phone_to_json _ Hs);
    reflexivity.
Qed.

Lemma mapM_record_to_json_stringified (book : AddressBook) :
  forallb str_phones (values book) = true ->
  mapM record_to_json (values (map stringify_entry book))
  = Ok (map saved_record (values book)).
Proof.
  unfold values.
  induction book as [|[k r] book IH]; simpl; intros H; [reflexivity|].
  apply andb_true_iff in H as [Hr Hbook].
  rewrite (record_to_json_stringified _ Hr). simpl.
  now rewrite (IH Hbook).
Qed.

(** When [open(filename, 'w')] returns, the file is there and empty. *)
Lemma open_write_file (env : environment) (fs : filesystem) (filename : string) :
  is_ok (open_write env fs filename) = true ->
  open_write env fs filename = Ok (write fs filename NotJson).
Proof.
  unfold open_write. destruct (filename =? "")%string; [discriminate|].
  destruct (env filename); [discriminate|].
  destruct (fs filename) as [[c|]|]; [reflexivity|discriminate|reflexivity].
Qed.

(** Where it has returned once, it returns again on the file that is now
    there, whatever is in it. *)
Lemma open_write_again (env : environment) (fs : filesystem) (filename : string)
    (c : contents) :
  is_ok (open_write env fs filename) = true ->
  open_write env (write fs filename c) filename
  = Ok (write (write fs filename c) filename NotJson).
Proof.
  unfold open_write. destruct (filename =? "")%string; [discriminate|].
  destruct (env filename); [discriminate|]. intros _.
  unfold write at 1. now rewrite String.eqb_refl.
Qed.

Lemma write_lookup (fs : filesystem) (filename : string) (c : contents) :
  write fs filename c filename = Some (File c).
Proof. unfold write. now rewrite String.eqb_refl. Qed.

Lemma save_to_file_dates (env : environment) (book : AddressBook) (filename : string)
    (fs : filesystem) :
  forallb (fun kv => birthday_is_date (snd kv)) book = true ->
  forallb str_phones (values book) = true ->
  is_ok (open_write env fs filename) = true ->
  save_to_file env book filename fs
  = (Ok tt, map stringify_entry book,
     write fs filename (Document (saved_document book))).
Proof.
  intros Hd Hs Hf. unfold save_to_file.
  rewrite (open_write_file _ _ _ Hf), (stringify_birthdays_dates _ Hd).
  now rewrite (mapM_record_to_json_stringified _ Hs).
Qed.

(** When [open(filename, 'w')] raises, nothing has changed. *)
Lemma save_to_file_not_opened (env : environment) (book : AddressBook) (filename : string)
    (fs : filesystem) (e : exn) :
  open_write env fs filename = Raise e ->
  save_to_file env book filename fs = (Raise e, book, fs).
Proof. intros H. unfold save_to_file. now rewrite H. Qed.

(** The empty name, and a path under a directory that is missing: [open]
    raises FileNotFoundError, the book keeps its [Birthday]. *)
Example save_to_file_no_such_file :
  save_to_file writable [("Ann", ann)] "" (fun _ => None)
  = (Raise FileNotFoundError, [("Ann", ann)], fun _ => None)
  /\ save_to_file (fun _ => Some FileNotFoundError) [("Ann", ann)] "nodir/book.json"
                  (fun _ => None)
     = (Raise FileNotFoundError, [("Ann", ann)], fun _ => None).
Proof. split; reflexivity. Qed.

(** C2.  On a book whose birthdays are [None] or [Birthday] values, a
    [save_to_file] whose [open(filename, 'w')] returns leaves every record
    with its birthday, if it has one, as the rendering of the date by
    [strftime('%Y-%m-%d')]: the record [r] under [k] has become
    [set_birthday r (BStr ...)].  The first save returns when the phones are
    strings.  A second save on the book so left raises AttributeError in
    the loop over the birthdays, after it has emptied the file. *)
Theorem save_to_file_stringifies_birthdays
    (env : environment) (book : AddressBook) (filename : string) (fs : filesystem)
    (k : string) (r : record) (b : Birthday) :
  forallb (fun kv => birthday_is_date (snd kv)) book = true ->
  is_ok (open_write env fs filename) = true ->
  In (k, r) book ->
  birthday r = BObj b ->
  exists res fs1,
    save_to_file env book filename fs = (res, map stringify_entry book, fs1)
    /\ In (k, set_birthday r (BStr (strftime (dt_date (Birthday_value b)))))
          (map stringify_entry book)
    /\ (forallb str_phones (values book) = true -> res = Ok tt)
    /\ save_to_file env (map stringify_entry book) filename fs1
       = (Raise AttributeError, map stringify_entry book,
          write fs1 filename NotJson).
Proof.
  intros Hd Hf Hin Hb.
  assert (Hk : In (k, set_birthday r (BStr (strftime (dt_date (Birthday_value b)))))
                  (map stringify_entry book)).
  { apply in_map_iff. exists (k, r). split; [|exact Hin].
    unfold stringify_entry, stringified. simpl. now rewrite Hb. }
  assert (Hex : existsb (fun kv => birthday_truthy (birthday (snd kv))) book = true).
  { apply existsb_exists. exists (k, r). split; [exact Hin|]. simpl. now rewrite Hb. }
  assert (Hagain : forall c,
            save_to_file env (map stringify_entry book) filename (write fs filename c)
            = (Raise AttributeError, map stringify_entry book,
               write (write fs filename c) filename NotJson)).
  { intros c. unfold save_to_file.
    now rewrite (open_write_again _ _ _ c Hf), (stringify_birthdays_again _ Hd Hex). }
  unfold save_to_file at 1.
  rewrite (open_write_file _ _ _ Hf), (stringify_birthdays_dates _ Hd).
  destruct (mapM record_to_json (values (map stringify_entry book))) as [js|e] eqn:Hj.
  - eexists _, _. split; [reflexivity|]. split; [exact Hk|]. split; [reflexivity|].
    apply Hagain.
  - eexists _, _. split; [reflexivity|]. split; [exact Hk|]. split.
    + intros Hs. rewrite (mapM_record_to_json_stringified _ Hs) in Hj. discriminate.
    + apply Hagain.
Qed.

Lemma save_to_file_stringifies_birthdays_witness :
  exists res fs1,
    save_to_file writable [("Ann", ann)] "book.json" (fun _ => None)
    = (res, map stringify_entry [("Ann", ann)], fs1)
    /\ In ("Ann", set_birthday ann (BStr (strftime (dt_date (Birthday_value ann_birthday)))))
          (map stringify_entry [("Ann", ann)])
    /\ (forallb str_phones (values [("Ann", ann)]) = true -> res = Ok tt)
    /\ save_to_file writable (map stringify_entry [("Ann", ann)]) "book.json" fs1
       = (Raise AttributeError, map stringify_entry [("Ann", ann)],
          write fs1 "book.json" NotJson).
Proof.
  apply (save_to_file_stringifies_birthdays writable [("Ann", ann)] "book.json"
           (fun _ => None) "Ann" ann ann_birthday).
  - reflexivity.
  - reflexivity.
  - left. reflexivity.
  - reflexivity.
Defined.

Example save_to_file_twice :
  let '(res1, book1, fs1) :=
    save_to_file writable [("Ann", ann)] "book.json" (fun _ => None) in
  let '(res2, book2, fs2) := save_to_file writable book1 "book.json" fs1 in
  res1 = Ok tt
  /\ book1 = [("Ann", set_birthday ann (BStr "2000-05-01"))]
  /\ res2 = Raise AttributeError
  /\ book2 = book1
  /\ fs2 "book.json" = Some (File NotJson).
Proof. vm_compute. repeat split. Qed.

(** ** load_from_file

    No step of the body raises FileNotFoundError: the handler is for [open]
    alone. *)

Lemma found_bind {A B : Type} (c : result A) (f : A -> result B) :
  found c -> (forall a, found (f a)) -> found (bind c f).
Proof.
  unfold found. intros Hc Hf. destruct c as [a|e]; simpl; [apply Hf|].
  intros E. apply Hc. now injection E as ->.
Qed.

Lemma found_Ok {A : Type} (a : A) : found (Ok a).
Proof. discriminate. Qed.

Lemma found_mapM {A B : Type} (f : A -> result B) (l : list A) :
  (forall a, found (f a)) -> found (mapM f l).
Proof.
  intros Hf. induction l as [|x l IH]; simpl; [apply found_Ok|].
  apply found_bind; [apply Hf|]. intros y.
  apply found_bind; [exact IH|]. intros ys. apply found_Ok.
Qed.

Lemma found_getitem (v : json) (key : string) : found (getitem v key).
Proof.
  unfold found, getitem. destruct v; try discriminate.
  destruct (assoc key d); discriminate.
Qed.

Lemma found_iter (v : json) : found (iter v).
Proof. unfold found, iter. destruct v; discriminate. Qed.

Lemma found_Phone_init (v : json) : found (Phone_init v).
Proof.
  unfold found, Phone_init. destruct v; try discriminate.
  destruct (validate_phone s); discriminate.
Qed.

Lemma found_Email_init (v : json) : found (Email_init v).
Proof.
  unfold found, Email_init. destruct v; try discriminate.
  destruct (validate_email s); discriminate.
Qed.

Lemma found_datetime_ymd (y m d : Z) : found (datetime_ymd y m d).
Proof. unfold found, datetime_ymd. destruct (_ && _); discriminate. Qed.

Lemma found_strptime (s : string) : found (strptime s).
Proof.
  unfold strptime.
  repeat match goal with
         | |- found (match ?x with _ => _ end) => destruct x
         | |- found (if ?x then _ else _) => destruct x
         | |- found (Raise _) => discriminate
         | |- found (datetime_ymd _ _ _) => apply found_datetime_ymd
         end.
Qed.

Lemma found_strptime_value (v : json) : found (strptime_value v).
Proof. destruct v; try discriminate. apply found_strptime. Qed.

Lemma found_Birthday_init (now value : datetime) : found (Birthday_init now value).
Proof. unfold found, Birthday_init. destruct (validate_birthday now value); discriminate. Qed.

Lemma found_process_numbers (l : list string) : found (process_numbers l).
Proof.
  induction l as [|x l IH]; simpl; [apply found_Ok|].
  destruct (validate_phone x) eqn:Hv; [|discriminate].
  apply found_bind; [apply found_Ok|]. intros p.
  apply found_bind; [exact IH|]. intros ps. apply found_Ok.
Qed.

Lemma found_process_phones (l : list phone_item) : found (process_phones l).
Proof.
  induction l as [|x l IH]; simpl; [apply found_Ok|].
  apply found_bind; [apply found_process_numbers|]. intros ps.
  apply found_bind; [exact IH|]. intros ps'. apply found_Ok.
Qed.

Lemma found_Record_init n a ps es b : found (Record_init n a ps es b).
Proof.
  unfold Record_init.
  apply found_bind; [destruct (Name_value n); discriminate|]. intros n'.
  apply found_bind; [destruct (Address_value a); discriminate|]. intros a'.
  apply found_bind; [apply found_process_phones|]. intros ps'. apply found_Ok.
Qed.

Lemma found_load_record (now : datetime) (record_data : json) :
  found (load_record now record_data).
Proof.
  unfold load_record.
  repeat first
    [ apply found_Ok | apply found_getitem | apply found_iter
    | apply found_Record_init | apply found_strptime_value
    | apply found_Birthday_init
    | apply found_mapM; intros ?
    | apply found_Phone_init | apply found_Email_init
    | apply found_bind; [|intros ?]
    | match goal with |- found (if ?x then _ else _) => destruct x end ].
Qed.

(** The loop of [load_from_file] adds the records one by one; what it
    returns is the book of all of them. *)
Lemma load_records_mapM (now : datetime) (records : list json) (book : AddressBook) :
  load_records now records book
  = (rs <- mapM (load_record now) records ;; Ok (fold_left add_record rs book)).
Proof.
  revert book. induction records as [|x l IH]; simpl; intros book; [reflexivity|].
  destruct (load_record now x) as [r|e]; simpl; [|reflexivity].
  rewrite IH. destruct (mapM (load_record now) l); reflexivity.
Qed.







(** The outcome of [load_from_file], by what is at the path. *)
Lemma load_from_file_cases (now : datetime) (filename : string) (fs : filesystem) :
  load_from_file now filename fs
  = match fs filename with
    | None => Ok []
    | Some Directory => Raise IsADirectoryError
    | Some (File NotJson) => Raise JSONDecodeError
    | Some (File (Document data)) =>
        records <- getitem data "records" ;;
        records <- iter records ;;
        rs <- mapM (load_record now) records ;;
        Ok (fold_left add_record rs [])
    end.
Proof.
  unfold load_from_file, open_read.
  destruct (fs filename) as [[[data|]|]|]; try reflexivity. simpl.
  assert (Hf : found (records <- getitem data "records" ;;
                      records <- iter records ;; load_records now records [])).
  { apply found_bind; [apply found_getitem|]. intros x.
    apply found_bind; [apply found_iter|]. intros l.
    rewrite load_records_mapM.
    apply found_bind; [apply found_mapM, found_load_record|]. intros rs.
    apply found_Ok. }
  destruct (getitem data "records") as [x|e]; simpl in *.
  - destruct (iter x) as [l|e]; simpl in *.
    + rewrite load_records_mapM in Hf |- *.
      destruct (mapM (load_record now) l) as [rs|e]; simpl in *; [reflexivity|].
      destruct e; try reflexivity. now elim Hf.
    + destruct e; try reflexivity. now elim Hf.
  - destruct e; try reflexivity. now elim Hf.
Qed.



(** The second scenario of the specification, with the file it writes. *)
Example load_from_file_scenario :
  let book := add_record [] ann in
  let '(res, _, fs) := save_to_file writable book "book.json" (fun _ => None) in
  load_from_file november_2026 "missing.json" (fun _ => None) = Ok []
  /\ res = Ok tt
  /\ load_from_file november_2026 "book.json" fs = Ok [("Ann", ann)].
Proof. vm_compute. repeat split. Qed.

(** ** validate_phone *)

Lemma re_match_bol (r : regex) (s : string) :
  re_match (RSeq RBol r) s
  = rmatch (String.length s) r (String.length s) s (fun _ => true).
Proof. unfold re_match. simpl. now rewrite Nat.eqb_refl. Qed.

Lemma in_set_digit (c : ascii) : in_set [CDigit] c = is_digit c.
Proof. unfold in_set. simpl. now rewrite orb_false_r. Qed.

Lemma in_set_char (c d : ascii) : in_set [CChar d] c = Ascii.eqb c d.
Proof. unfold in_set. simpl. now rewrite orb_false_r. Qed.

(** One character of the subject against a pattern and a template that
    are both a row of digits and literals. *)
Ltac template_step s :=
  destruct s as [|?c s];
  [ reflexivity
  | cbn -[is_digit Ascii.eqb in_set]; rewrite ?in_set_digit, ?in_set_char;
    match goal with
    | |- context [is_digit ?c] => destruct (is_digit c) eqn:?; [|reflexivity]
    | |- context [Ascii.eqb ?c ?d] => destruct (Ascii.eqb c d) eqn:?; [|reflexivity]
    end ].

Ltac template_end s :=
  destruct s as [|?c [|? ?]];
  [ reflexivity
  | match goal with
    | |- context [Ascii.eqb ?c "010"] => destruct (Ascii.eqb c "010"); reflexivity
    end
  | rewrite !andb_false_r; reflexivity ].

Ltac template_start s :=
  cbn [rseq]; rewrite re_match_bol;
  generalize (String.length s) at 1 2; intros ?;
  unfold matches_template_nl, digit, lit.

Lemma phone_re1_template (s : string) :
  re_match phone_re1 s = matches_template_nl "+NN-NNN-NNNNNNN" s.
Proof.
  unfold phone_re1. template_start s. do 15 (template_step s). template_end s.
Qed.

Lemma phone_re2_template (s : string) :
  re_match phone_re2 s = matches_template_nl "+NNNNNNNNNNNN" s.
Proof.
  unfold phone_re2. template_start s. do 13 (template_step s). template_end s.
Qed.

Lemma phone_re3_template (s : string) :
  re_match phone_re3 s = matches_template_nl "NNN-NNNNNNN" s.
Proof.
  unfold phone_re3. template_start s. do 11 (template_step s). template_end s.
Qed.

Lemma phone_re4_template (s : string) :
  re_match phone_re4 s = matches_template_nl "NNNNNNNNNN" s.
Proof.
  unfold phone_re4. template_start s. do 10 (template_step s). template_end s.
Qed.

(** [validate_phone] accepts the four shapes, and each of them with a
    newline after it: that is what [$] lets through. *)
Lemma validate_phone_templates (s : string) :
  validate_phone s = existsb (fun t => matches_template_nl t s) phone_shapes.
Proof.
  unfold validate_phone.
  rewrite phone_re1_template, phone_re2_template, phone_re3_template, phone_re4_template.
  simpl. rewrite orb_false_r.
  repeat match goal with |- context [matches_template_nl ?t s] =>
    destruct (matches_template_nl t s); simpl; try reflexivity end.
Qed.

(** Every string of one of the four shapes is accepted. *)
Lemma validate_phone_shapes (s : string) :
  matches_shape s = true -> validate_phone s = true.
Proof.
  rewrite validate_phone_templates. unfold matches_shape. intros H.
  apply existsb_exists in H as (t & Ht & Hm). apply existsb_exists.
  exists t. split; [exact Ht|]. unfold matches_template_nl. now rewrite Hm.
Qed.

Lemma matches_template_append (t s : string) :
  matches_template t s = true ->
  matches_template (t ++ newline) (s ++ newline) = true.
Proof.
  revert s. induction t as [|a t IH]; intros [|c s]; simpl; try discriminate.
  - reflexivity.
  - intros H. apply andb_true_iff in H as [Hc Hs].
    now rewrite Hc, (IH s Hs).
Qed.

Lemma has_newline_append (s : string) : has_newline (s ++ newline) = true.
Proof.
  induction s as [|c s IH]; simpl; [reflexivity|]. now rewrite IH, orb_true_r.
Qed.

(** A template without a newline matches no string with one. *)
Lemma matches_template_no_newline (t s : string) :
  has_newline t = false -> matches_template t s = true -> has_newline s = false.
Proof.
  revert s. induction t as [|a t IH]; intros [|c s]; simpl; try discriminate.
  - reflexivity.
  - intros Ht H. apply orb_false_iff in Ht as [Ha Ht].
    apply andb_true_iff in H as [Hc Hs]. rewrite (IH s Ht Hs), orb_false_r.
    destruct (Ascii.eqb a "N").
    + destruct (Ascii.eqb_spec c "010") as [->|]; [discriminate|reflexivity].
    + apply Ascii.eqb_eq in Hc. now subst c.
Qed.

Lemma matches_shape_no_newline (s : string) :
  matches_shape s = true -> has_newline s = false.
Proof.
  unfold matches_shape. intros H. apply existsb_exists in H as (t & Ht & Hm).
  refine (matches_template_no_newline t s _ Hm).
  simpl in Ht. decompose [or] Ht; subst; try reflexivity; contradiction.
Qed.

(** C9 (the code departs from it).  The patterns end with [$], which also
    holds before a newline that ends the string: a phone of any of the four
    shapes is still accepted with a newline appended, a string that is of
    none of the shapes. *)
Theorem validate_phone_accepts_appended_newline (s : string) :
  matches_shape s = true ->
  validate_phone (s ++ newline) = true /\ matches_shape (s ++ newline) = false.
Proof.
  intros H. split.
  - rewrite validate_phone_templates. unfold matches_shape in H.
    apply existsb_exists in H as (t & Ht & Hm). apply existsb_exists.
    exists t. split; [exact Ht|]. unfold matches_template_nl.
    now rewrite (matches_template_append _ _ Hm), orb_true_r.
  - destruct (matches_shape (s ++ newline)) eqn:E; [|reflexivity].
    apply matches_shape_no_newline in E. now rewrite has_newline_append in E.
Qed.

Lemma validate_phone_accepts_appended_newline_witness :
  validate_phone ("0000000000" ++ newline) = true
  /\ matches_shape ("0000000000" ++ newline) = false.
Proof.
  apply validate_phone_accepts_appended_newline. reflexivity.
Defined.

Lemma matches_template_newline_inv (t s : string) :
  matches_template (t ++ newline) s = true ->
  exists s', s = (s' ++ newline)%string /\ matches_template t s' = true.
Proof.
  revert s. induction t as [|a t IH]; intros [|c s]; simpl; try discriminate.
  - destruct s; [|now rewrite andb_false_r].
    rewrite andb_true_r. intros H. apply Ascii.eqb_eq in H. subst c.
    now exists EmptyString.
  - intros H. apply andb_true_iff in H as [Hc Hs].
    destruct (IH s Hs) as (s' & -> & Hm). exists (String c s').
    split; [reflexivity|]. simpl. now rewrite Hc, Hm.
Qed.

(** What is accepted is of one of the four shapes, up to a newline at the
    end. *)
Lemma validate_phone_sound (s : string) :
  validate_phone s = true ->
  matches_shape s = true
  \/ exists s', s = (s' ++ newline)%string /\ matches_shape s' = true.
Proof.
  rewrite validate_phone_templates. intros H.
  apply existsb_exists in H as (t & Ht & Hm). unfold matches_template_nl in Hm.
  apply orb_true_iff in Hm as [Hm|Hm].
  - left. apply existsb_exists. now exists t.
  - right. destruct (matches_template_newline_inv _ _ Hm) as (s' & -> & Hs').
    exists s'. split; [reflexivity|]. apply existsb_exists. now exists t.
Qed.

(** A wrong count of digits is refused. *)
Example validate_phone_wrong_count :
  validate_phone "000000000" = false /\ validate_phone "00000000000" = false
  /\ validate_phone "+3800000000000" = false /\ validate_phone "380-123456" = false.
Proof. vm_compute. repeat split. Qed.

(** ** strftime and strptime *)

Lemma digit_char_spec (z : Z) :
  is_digit (digit_char z) = true /\ digit_val (digit_char z) = z mod 10.
Proof.
  assert (H : 0 <= z mod 10 < 10) by (apply Z.mod_pos_bound; lia).
  unfold digit_char. remember (z mod 10) as k eqn:Ek. clear Ek.
  assert (Hk : k = 0 \/ k = 1 \/ k = 2 \/ k = 3 \/ k = 4 \/ k = 5 \/ k = 6
               \/ k = 7 \/ k = 8 \/ k = 9) by lia.
  decompose [or] Hk; subst k; split; reflexivity.
Qed.

Lemma year_digits (y : Z) :
  0 <= y <= 9999 ->
  1000 * ((y / 1000) mod 10) + 100 * ((y / 100) mod 10) + 10 * ((y / 10) mod 10)
  + y mod 10 = y.
Proof. intros H. Z.div_mod_to_equations. lia. Qed.

Lemma read_month_digits2 (m : Z) (rest : string) :
  1 <= m <= 12 ->
  read_month (String (digit_char (m / 10)) (String (digit_char m) (String "-" rest)))
  = Some (m, rest).
Proof.
  intros H.
  assert (Hm : m = 1 \/ m = 2 \/ m = 3 \/ m = 4 \/ m = 5 \/ m = 6 \/ m = 7
               \/ m = 8 \/ m = 9 \/ m = 10 \/ m = 11 \/ m = 12) by lia.
  decompose [or] Hm; subst m; reflexivity.
Qed.

Lemma read_day_digits2 (d : Z) :
  1 <= d <= 31 -> read_day (digits2 d) = Some (d, EmptyString).
Proof.
  intros H.
  assert (Hd : exists n, d = Z.of_nat n /\ (n < 32)%nat) by (exists (Z.to_nat d); lia).
  destruct Hd as (n & -> & Hn).
  do 32 (destruct n as [|n]; [try lia; try reflexivity|]). lia.
Qed.

Lemma days_in_month_le (y m : Z) : days_in_month y m <= 31.
Proof.
  unfold days_in_month.
  repeat match goal with |- context [if ?b then _ else _] => destruct b end; lia.
Qed.

Lemma year_text_four_digits (y : Z) : 1000 <= y -> year_text y = digits4 y.
Proof.
  intros H. unfold year_text.
  destruct (Z.ltb_spec y 10); [lia|]. destruct (Z.ltb_spec y 100); [lia|].
  destruct (Z.ltb_spec y 1000); [lia|reflexivity].
Qed.

(** Parsing the rendering of a date from the year 1000 on gives the
    midnight of the date. *)
Lemma strptime_strftime (d : date) :
  valid_date d = true -> 1000 <= year d ->
  strptime (strftime d) = Ok (mkDatetime d 0).
Proof.
  unfold valid_date, MINYEAR, MAXYEAR. intros H Hy.
  destruct d as [y m dd]. simpl in H, Hy.
  repeat (apply andb_true_iff in H as [H ?]).
  unfold strftime. simpl year. simpl month. simpl day.
  rewrite (year_text_four_digits y Hy). unfold digits4.
  cbn [append digits2]. unfold strptime.
  destruct (digit_char_spec (y / 1000)) as [-> E1].
  destruct (digit_char_spec (y / 100)) as [-> E2].
  destruct (digit_char_spec (y / 10)) as [-> E3].
  destruct (digit_char_spec y) as [-> E4].
  cbn [andb]. rewrite E1, E2, E3, E4.
  rewrite read_month_digits2 by lia.
  pose proof (days_in_month_le y m).
  rewrite read_day_digits2 by lia.
  rewrite year_digits by lia.
  unfold datetime_ymd, MINYEAR, MAXYEAR.
  repeat match goal with H : (_ <=? _) = true |- _ => rewrite H; clear H end.
  reflexivity.
Qed.

(** The rendering of a date before the year 1000 has fewer than four
    digits of year, and [strptime] refuses it. *)
Lemma strptime_strftime_short (d : date) :
  valid_date d = true -> year d < 1000 ->
  strptime (strftime d) = Raise (ValueError "time data does not match format").
Proof.
  unfold valid_date, MINYEAR, MAXYEAR. intros H Hy.
  destruct d as [y m dd]. simpl in H, Hy.
  repeat (apply andb_true_iff in H as [H ?]).
  assert (Hm : m = 1 \/ m = 2 \/ m = 3 \/ m = 4 \/ m = 5 \/ m = 6 \/ m = 7
               \/ m = 8 \/ m = 9 \/ m = 10 \/ m = 11 \/ m = 12) by lia.
  unfold strftime, year_text. simpl year. simpl month. simpl day.
  destruct (y <? 10); [|destruct (y <? 100); [|destruct (Z.ltb_spec y 1000); [|lia]]];
    decompose [or] Hm; subst m; cbn [append digits2]; unfold strptime;
    try reflexivity;
    destruct (is_digit (digit_char y)); reflexivity.
Qed.

(** ** The order on datetimes *)

Lemma date_gtb_spec (a b : date) :
  date_gtb a b = true <->
  year b < year a
  \/ (year b = year a /\ (month b < month a \/ (month b = month a /\ day b < day a))).
Proof.
  unfold date_gtb.
  rewrite !orb_true_iff, !andb_true_iff, !orb_true_iff, !andb_true_iff.
  rewrite !Z.ltb_lt, !Z.eqb_eq. reflexivity.
Qed.

Lemma datetime_leb_spec (a b : datetime) :
  datetime_leb a b = true <->
  date_gtb (dt_date b) (dt_date a) = true
  \/ (date_gtb (dt_date a) (dt_date b) = false /\ dt_time a <= dt_time b).
Proof.
  unfold datetime_leb.
  rewrite andb_true_iff, orb_true_iff, negb_true_iff, Z.leb_le.
  split.
  - intros [H1 [H2|H2]]; auto.
  - intros [H|[H1 H2]]; [|auto]. split; [|auto].
    destruct (date_gtb (dt_date a) (dt_date b)) eqn:E; [|reflexivity].
    apply date_gtb_spec in H. apply date_gtb_spec in E. lia.
Qed.

Lemma datetime_leb_trans (a b c : datetime) :
  datetime_leb a b = true -> datetime_leb b c = true -> datetime_leb a c = true.
Proof.
  rewrite !datetime_leb_spec. intros Hab Hbc.
  assert (Hgt : forall x y, date_gtb x y = false ->
            ~ (year y < year x
               \/ (year y = year x
                   /\ (month y < month x \/ (month y = month x /\ day y < day x))))).
  { intros x y E F. apply date_gtb_spec in F. congruence. }
  destruct Hab as [Hab|[Hab Tab]], Hbc as [Hbc|[Hbc Tbc]].
  - left. apply date_gtb_spec in Hab, Hbc. apply date_gtb_spec. lia.
  - left. apply date_gtb_spec in Hab. apply Hgt in Hbc. apply date_gtb_spec.
    destruct (date_gtb (dt_date a) (dt_date c)) eqn:E.
    + apply date_gtb_spec in E. lia.
    + apply Hgt in E. lia.
  - left. apply date_gtb_spec in Hbc. apply Hgt in Hab. apply date_gtb_spec. lia.
  - apply Hgt in Hab. apply Hgt in Hbc.
    destruct (date_gtb (dt_date c) (dt_date a)) eqn:E; [now left|right].
    apply Hgt in E. split; [|lia].
    destruct (date_gtb (dt_date a) (dt_date c)) eqn:F; [|reflexivity].
    apply date_gtb_spec in F. lia.
Qed.

Lemma date_gtb_irrefl (d : date) : date_gtb d d = false.
Proof.
  destruct (date_gtb d d) eqn:E; [|reflexivity]. apply date_gtb_spec in E. lia.
Qed.

(** The midnight of the day of a datetime is not after it. *)
Lemma midnight_leb (t : datetime) :
  valid_datetime t = true -> datetime_leb (mkDatetime (dt_date t) 0) t = true.
Proof.
  unfold valid_datetime. intros H.
  apply andb_true_iff in H as [H _]. apply andb_true_iff in H as [_ H].
  apply datetime_leb_spec. right. simpl. split; [apply date_gtb_irrefl|lia].
Qed.

(** ** What the constructor stores *)

Lemma re_split_aux_free (items : list cclass) (skipping : bool) (s : string) :
  forallb (free_of items) (re_split_aux items skipping s) = true.
Proof.
  revert skipping. induction s as [|c s IH]; intros skipping; simpl; [reflexivity|].
  destruct (in_set items c) eqn:Hc.
  - destruct skipping; simpl; apply IH.
  - specialize (IH false). destruct (re_split_aux items false s) as [|piece pieces].
    + simpl. now rewrite Hc.
    + simpl in IH |- *. now rewrite Hc.
Qed.

Lemma re_split_free (items : list cclass) (s : string) :
  free_of items s = true -> re_split items s = [s].
Proof.
  unfold re_split. induction s as [|c s IH]; simpl; intros H; [reflexivity|].
  apply andb_true_iff in H as [Hc Hs]. apply negb_true_iff in Hc.
  now rewrite Hc, (IH Hs).
Qed.

Lemma process_numbers_Ok (l : list string) (out : list phone_item) :
  process_numbers l = Ok out ->
  out = map PStr l /\ forallb validate_phone l = true.
Proof.
  revert out. induction l as [|x l IH]; simpl; intros out H.
  - injection H as <-. auto.
  - destruct (validate_phone x) eqn:Hv; [|discriminate]. simpl in H.
    destruct (process_numbers l) as [ps|e]; [|discriminate]. simpl in H.
    injection H as <-. destruct (IH ps eq_refl) as [-> Hl]. auto.
Qed.

Lemma process_numbers_valid (l : list string) :
  forallb validate_phone l = true -> process_numbers l = Ok (map PStr l).
Proof.
  induction l as [|x l IH]; simpl; intros H; [reflexivity|].
  apply andb_true_iff in H as [Hx Hl]. rewrite Hx. simpl. now rewrite (IH Hl).
Qed.

Lemma forallb_stored_phone (l : list string) :
  forallb validate_phone l = true ->
  forallb (free_of phone_separators) l = true ->
  forallb stored_phone (map PStr l) = true.
Proof.
  induction l as [|x l IH]; simpl; intros Hv Hf; [reflexivity|].
  apply andb_true_iff in Hv as [-> Hv]. apply andb_true_iff in Hf as [-> Hf].
  now apply IH.
Qed.

Lemma process_phones_stored (ps out : list phone_item) :
  process_phones ps = Ok out -> forallb stored_phone out = true.
Proof.
  revert out. induction ps as [|p ps IH]; simpl; intros out H.
  - injection H as <-. reflexivity.
  - destruct (process_numbers _) as [l|e] eqn:Hn; [|discriminate]. simpl in H.
    destruct (process_phones ps) as [l'|e]; [|discriminate]. simpl in H.
    injection H as <-. rewrite forallb_app, (IH l' eq_refl), andb_true_r.
    apply process_numbers_Ok in Hn as [-> Hv].
    apply forallb_stored_phone; [exact Hv|apply re_split_aux_free].
Qed.

Lemma constructed_storable (now : datetime) (r : record) :
  constructed now r -> storable now r.
Proof.
  intros (n & a & ps & es & b & Hinit & Hes & Hb). unfold Record_init in Hinit.
  destruct (str_of_value (Name_value n)) as [n'|]; [|discriminate].
  destruct (str_of_value (Address_value a)) as [a'|]; [|discriminate].
  simpl in Hinit. destruct (process_phones ps) as [ps'|] eqn:Hps; [|discriminate].
  simpl in Hinit. injection Hinit as <-. unfold storable. simpl.
  split; [exact (process_phones_stored _ _ Hps)|]. split.
  - destruct es as [l|]; [|reflexivity].
    induction Hes as [|e l He _ IH]; simpl; [reflexivity|]. rewrite IH, andb_true_r.
    unfold Email_init in He. destruct (validate_email (Email_value e)); congruence.
  - destruct b as [o|]; [|exact I]. destruct Hb as [Hv Hb]. split; [exact Hv|].
    unfold Birthday_init in Hb.
    destruct (validate_birthday now (Birthday_value o)); congruence.
Qed.

(** ** Saving and loading *)

Lemma stored_phone_str (ps : list phone_item) :
  forallb stored_phone ps = true ->
  ps = map PStr (map phone_str ps)
  /\ forallb validate_phone (map phone_str ps) = true
  /\ forallb (free_of phone_separators) (map phone_str ps) = true.
Proof.
  induction ps as [|p ps IH]; simpl; intros H; [auto|].
  apply andb_true_iff in H as [Hp Hps]. destruct (IH Hps) as (E & Hv & Hf).
  destruct p as [s|]; [|discriminate]. simpl in Hp |- *.
  apply andb_true_iff in Hp as [-> ->]. rewrite <- E. auto.
Qed.

Lemma mapM_Phone_init (l : list string) :
  forallb validate_phone l = true ->
  mapM Phone_init (map JStr l) = Ok (map mkPhone l).
Proof.
  induction l as [|x l IH]; simpl; intros H; [reflexivity|].
  apply andb_true_iff in H as [Hx Hl]. rewrite Hx. simpl. now rewrite (IH Hl).
Qed.

Lemma mapM_Email_init (l : list string) :
  forallb validate_email l = true ->
  mapM Email_init (map JStr l) = Ok (map mkEmail l).
Proof.
  induction l as [|x l IH]; simpl; intros H; [reflexivity|].
  apply andb_true_iff in H as [Hx Hl]. rewrite Hx. simpl. now rewrite (IH Hl).
Qed.

Lemma process_phones_reload (l : list string) :
  forallb validate_phone l = true ->
  forallb (free_of phone_separators) l = true ->
  process_phones (map PObj (map mkPhone l)) = Ok (map PStr l).
Proof.
  induction l as [|x l IH]; simpl; intros Hv Hf; [reflexivity|].
  apply andb_true_iff in Hv as [Hx Hv]. apply andb_true_iff in Hf as [Fx Hf].
  rewrite (re_split_free _ _ Fx). simpl. rewrite Hx. simpl.
  now rewrite (IH Hv Hf).
Qed.

Lemma map_Email_value (l : list string) : map Email_value (map mkEmail l) = l.
Proof. induction l; simpl; congruence. Qed.

(** Loading what was saved for a record gives the record back, with the
    birthday at midnight, when the year of the birthday has four digits;
    the clock has not gone back since the record was built. *)
Lemma load_record_saved (now0 now1 : datetime) (r : record) :
  datetime_leb now0 now1 = true ->
  storable now0 r ->
  four_digit_year r = true ->
  load_record now1 (saved_record r) = Ok (reloaded r).
Proof.
  intros Hclock (Hps & Hes & Hb) Hy. unfold load_record, saved_record.
  destruct (stored_phone_str _ Hps) as (Eps & Hv & Hf).
  cbn [getitem assoc String.eqb Ascii.eqb Bool.eqb bind iter].
  rewrite (mapM_Phone_init _ Hv), (mapM_Email_init _ Hes).
  cbn [bind]. unfold Record_init. cbn [Name_value Address_value str_of_value bind].
  rewrite (process_phones_reload _ Hv Hf), map_Email_value. cbn [bind].
  unfold saved_birthday, reloaded. destruct r as [n a ps es b]. simpl in *.
  destruct b as [|b|s]; [| |contradiction].
  - simpl. now rewrite <- Eps.
  - destruct Hb as [Hvalid Hle]. unfold truthy. rewrite strftime_nonempty.
    cbn [negb strptime_value].
    assert (Hd : valid_date (dt_date (Birthday_value b)) = true).
    { unfold valid_datetime in Hvalid. apply andb_true_iff in Hvalid as [H _].
      now apply andb_true_iff in H as [H _]. }
    unfold four_digit_year in Hy. simpl in Hy. apply Z.leb_le in Hy.
    rewrite (strptime_strftime _ Hd Hy). cbn [bind]. unfold Birthday_init.
    assert (Hmid : validate_birthday now1
                     (mkDatetime (dt_date (Birthday_value b)) 0) = true).
    { unfold validate_birthday in *.
      apply (datetime_leb_trans _ now0); [|exact Hclock].
      apply (datetime_leb_trans _ (Birthday_value b)); [|exact Hle].
      now apply midnight_leb. }
    rewrite Hmid. unfold set_birthday. simpl. now rewrite <- Eps.
Qed.

(** With a birthday before the year 1000, what was saved for the record
    is refused by [strptime]. *)
Lemma load_record_saved_short_year (now0 now1 : datetime) (r : record) :
  storable now0 r ->
  four_digit_year r = false ->
  load_record now1 (saved_record r)
  = Raise (ValueError "time data does not match format").
Proof.
  intros (Hps & Hes & Hb) Hy. unfold load_record, saved_record.
  destruct (stored_phone_str _ Hps) as (Eps & Hv & Hf).
  cbn [getitem assoc String.eqb Ascii.eqb Bool.eqb bind iter].
  rewrite (mapM_Phone_init _ Hv), (mapM_Email_init _ Hes).
  cbn [bind]. unfold saved_birthday, four_digit_year in *.
  destruct (birthday r) as [|b|s]; [discriminate| |contradiction].
  destruct Hb as [Hvalid _]. unfold truthy. rewrite strftime_nonempty.
  cbn [negb strptime_value].
  assert (Hd : valid_date (dt_date (Birthday_value b)) = true).
  { unfold valid_datetime in Hvalid. apply andb_true_iff in Hvalid as [H _].
    now apply andb_true_iff in H as [H _]. }
  apply Z.leb_gt in Hy.
  now rewrite (strptime_strftime_short _ Hd) by lia.
Qed.

Lemma mapM_load_record_saved (now0 now1 : datetime) (rs : list record) :
  datetime_leb now0 now1 = true ->
  Forall (storable now0) rs ->
  forallb four_digit_year rs = true ->
  mapM (load_record now1) (map saved_record rs) = Ok (map reloaded rs).
Proof.
  intros Hclock H. induction H as [|r rs Hr _ IH]; simpl; [reflexivity|].
  intros Hy. apply andb_true_iff in Hy as [Hy Hys].
  rewrite (load_record_saved _ _ _ Hclock Hr Hy). simpl. now rewrite IH.
Qed.

(** The load stops at the first record with such a birthday. *)
Lemma mapM_load_record_saved_short_year (now0 now1 : datetime) (rs : list record) :
  datetime_leb now0 now1 = true ->
  Forall (storable now0) rs ->
  forallb four_digit_year rs = false ->
  mapM (load_record now1) (map saved_record rs)
  = Raise (ValueError "time data does not match format").
Proof.
  intros Hclock H. induction H as [|r rs Hr _ IH]; simpl; [discriminate|].
  intros Hy. destruct (four_digit_year r) eqn:Hr4.
  - rewrite (load_record_saved _ _ _ Hclock Hr Hr4). simpl. now rewrite IH.
  - now rewrite (load_record_saved_short_year now0 _ _ Hr Hr4).
Qed.

Lemma dict_set_fresh {A : Type} (k : string) (v : A) (d : list (string * A)) :
  ~ In k (map fst d) -> dict_set k v d = d ++ [(k, v)].
Proof.
  induction d as [|[k' v'] d IH]; simpl; intros H; [reflexivity|].
  destruct (String.eqb_spec k' k) as [->|Hne]; [tauto|].
  rewrite IH; tauto.
Qed.

Lemma name_reloaded (r : record) : name (reloaded r) = name r.
Proof. unfold reloaded. now destruct (birthday r). Qed.

(** Adding the records again, each under its name, rebuilds the book. *)
Lemma fold_add_record_reloaded (book acc : AddressBook) :
  NoDup (map fst (acc ++ book)) ->
  Forall (fun kv => fst kv = name (snd kv)) book ->
  fold_left add_record (map reloaded (values book)) acc
  = acc ++ map reload_entry book.
Proof.
  revert acc. induction book as [|[k r] book IH]; simpl; intros acc Hnd Hk.
  - now rewrite app_nil_r.
  - inversion Hk as [|? ? Hkr Hk']; subst. simpl in Hkr.
    unfold add_record at 2. rewrite name_reloaded, <- Hkr.
    rewrite dict_set_fresh.
    + rewrite IH; [now rewrite <- app_assoc| |exact Hk'].
      repeat rewrite map_app in Hnd. repeat rewrite map_app. simpl in Hnd |- *.
      rewrite <- app_assoc. exact Hnd.
    + rewrite map_app in Hnd. simpl in Hnd. apply NoDup_remove_2 in Hnd.
      intros Hin. apply Hnd. apply in_or_app. now left.
Qed.

Lemma stored_phone_is_str (ps : list phone_item) :
  forallb stored_phone ps = true -> forallb is_str ps = true.
Proof.
  induction ps as [|p ps IH]; simpl; intros H; [reflexivity|].
  apply andb_true_iff in H as [Hp Hps]. rewrite (IH Hps).
  now destruct p.
Qed.

Lemma same_fields_reloaded (now : datetime) (r : record) :
  storable now r -> same_fields r (reloaded r).
Proof.
  intros (_ & _ & Hb). unfold same_fields, reloaded, same_birthday.
  destruct (birthday r) as [|b|s] eqn:E; simpl; rewrite ?E; tauto.
Qed.

(** C3.  A book of records that the constructors have returned, each under
    its name, is saved to a file that can be opened for writing and loaded
    again, the clock not having gone back in between.  The save returns.
    When every birthday is in the year 1000 or later, the load returns a
    book with the same keys in the same order, and under each key a record
    that has the name, the address, the phones and the emails of the record
    that was saved, and a birthday on the same date.  When a birthday is in
    a year before 1000, the file holds its year on fewer than four digits
    and the load raises ValueError: there the round trip fails.  The
    records compared are those of the book before the save. *)
Theorem save_then_load_round_trip
    (env : environment) (now0 now1 : datetime) (book : AddressBook) (filename : string)
    (fs : filesystem) :
  datetime_leb now0 now1 = true ->
  constructed_book now0 book ->
  is_ok (open_write env fs filename) = true ->
  exists book1 fs1,
    save_to_file env book filename fs = (Ok tt, book1, fs1)
    /\ (forallb four_digit_year (values book) = true ->
        exists loaded,
          load_from_file now1 filename fs1 = Ok loaded
          /\ Forall2 (fun kv kv' => fst kv = fst kv' /\ same_fields (snd kv) (snd kv'))
                     book loaded)
    /\ (forallb four_digit_year (values book) = false ->
        load_from_file now1 filename fs1
        = Raise (ValueError "time data does not match format")).
Proof.
  intros Hclock [Hnd Hbook] Hfile.
  assert (Hst : Forall (fun kv => storable now0 (snd kv)) book).
  { eapply Forall_impl; [|exact Hbook]. intros kv [_ Hc].
    now apply constructed_storable. }
  assert (Hdates : forallb (fun kv => birthday_is_date (snd kv)) book = true).
  { apply forallb_forall. intros kv Hin.
    destruct (proj1 (Forall_forall _ _) Hst kv Hin) as (_ & _ & Hb).
    unfold birthday_is_date. now destruct (birthday (snd kv)). }
  assert (Hstr : forallb str_phones (values book) = true).
  { apply forallb_forall. intros r Hin. apply in_map_iff in Hin as (kv & <- & Hin).
    destruct (proj1 (Forall_forall _ _) Hst kv Hin) as (Hps & _).
    now apply stored_phone_is_str. }
  assert (Hvs : Forall (storable now0) (values book)).
  { unfold values. apply Forall_map. exact Hst. }
  exists (map stringify_entry book),
         (write fs filename (Document (saved_document book))).
  split; [now apply save_to_file_dates|]. split.
  - intros Hy. exists (map reload_entry book). split.
    + rewrite load_from_file_cases, write_lookup. unfold saved_document.
      cbn [getitem assoc String.eqb Ascii.eqb Bool.eqb bind iter].
      rewrite (mapM_load_record_saved now0 now1 (values book) Hclock Hvs Hy).
      cbn [bind]. rewrite fold_add_record_reloaded; [reflexivity|exact Hnd|].
      eapply Forall_impl; [|exact Hbook]. now intros kv [Hk _].
    + clear Hnd Hbook Hdates Hstr Hvs Hy.
      induction Hst as [|kv l Hkv _ IH]; simpl; constructor; [|exact IH].
      split; [reflexivity|]. now apply (same_fields_reloaded now0).
  - intros Hy. rewrite load_from_file_cases, write_lookup. unfold saved_document.
    cbn [getitem assoc String.eqb Ascii.eqb Bool.eqb bind iter].
    now rewrite (mapM_load_record_saved_short_year now0 now1 (values book) Hclock Hvs Hy).
Qed.

Lemma ann_in_constructed_book : constructed_book november_2026 [("Ann", ann)].
Proof.
  split.
  - constructor; [simpl; tauto|constructor].
  - constructor; [|constructor]. split; [reflexivity|].
    exists (mkName (JStr "Ann")), (mkAddress (JStr "Main St")),
           [PObj (mkPhone "380-1234567")], (Some [mkEmail "ann@x.com"]),
           (Some ann_birthday).
    split; [vm_compute; reflexivity|]. split.
    + constructor; [vm_compute; reflexivity|constructor].
    + split; vm_compute; reflexivity.
Defined.

Lemma eve_in_constructed_book : constructed_book november_2026 [("Eve", eve)].
Proof.
  split.
  - constructor; [simpl; tauto|constructor].
  - constructor; [|constructor]. split; [reflexivity|].
    exists (mkName (JStr "Eve")), (mkAddress (JStr "Old St")),
           [PObj (mkPhone "380-7654321")], (Some [mkEmail "eve@x.com"]),
           (Some eve_birthday).
    split; [vm_compute; reflexivity|]. split.
    + constructor; [vm_compute; reflexivity|constructor].
    + split; vm_compute; reflexivity.
Defined.

Lemma save_then_load_round_trip_witness :
  exists book1 fs1,
    save_to_file writable [("Eve", eve)] "book.json" (fun _ => None)
    = (Ok tt, book1, fs1)
    /\ (forallb four_digit_year (values [("Eve", eve)]) = true ->
        exists loaded,
          load_from_file november_2026 "book.json" fs1 = Ok loaded
          /\ Forall2 (fun kv kv' => fst kv = fst kv' /\ same_fields (snd kv) (snd kv'))
                     [("Eve", eve)] loaded)
    /\ (forallb four_digit_year (values [("Eve", eve)]) = false ->
        load_from_file november_2026 "book.json" fs1
        = Raise (ValueError "time data does not match format")).
Proof.
  apply (save_then_load_round_trip writable november_2026 november_2026).
  - reflexivity.
  - exact eve_in_constructed_book.
  - reflexivity.
Defined.

(** The record with the birthday in the year 999, saved and loaded: the
    file holds the year on three digits and the load raises. *)
Example save_then_load_year_999 :
  let '(res, _, fs) := save_to_file writable [("Eve", eve)] "book.json" (fun _ => None) in
  res = Ok tt
  /\ fs "book.json"
     = Some (File (Document (JDict [("records", JList [
         JDict [("name", JStr "Eve"); ("address", JStr "Old St");
                ("phones", JList [JStr "380-7654321"]);
                ("emails", JList [JStr "eve@x.com"]);
                ("birthday", JStr "999-05-01")]])])))
  /\ load_from_file november_2026 "book.json" fs
     = Raise (ValueError "time data does not match format").
Proof. vm_compute. repeat split. Qed.

(** ** The book that add_record builds *)

Lemma dict_set_keys_in {A : Type} (k : string) (v : A) (d : list (string * A)) (x : string) :
  In x (map fst (dict_set k v d)) -> x = k \/ In x (map fst d).
Proof.
  induction d as [|[k' v'] d IH]; simpl; [intuition|].
  destruct (String.eqb_spec k' k) as [->|Hne]; simpl; [intuition|].
  intros [H|H]; [tauto|]. destruct (IH H); tauto.
Qed.

Lemma dict_set_NoDup {A : Type} (k : string) (v : A) (d : list (string * A)) :
  NoDup (map fst d) -> NoDup (map fst (dict_set k v d)).
Proof.
  induction d as [|[k' v'] d IH]; simpl; intros H.
  - constructor; [tauto|constructor].
  - inversion H as [|? ? Hk' Hd]; subst.
    destruct (String.eqb_spec k' k) as [->|Hne]; simpl.
    + now constructor.
    + constructor; [|now apply IH].
      intros Hin. apply dict_set_keys_in in Hin as [->|Hin]; tauto.
Qed.

Lemma dict_set_Forall {A : Type} (P : string * A -> Prop) (k : string) (v : A)
    (d : list (string * A)) :
  P (k, v) -> Forall P d -> Forall P (dict_set k v d).
Proof.
  intros Hkv H. induction H as [|[k' v'] d Hx Hd IH]; simpl.
  - now constructor.
  - destruct (String.eqb k' k); constructor; auto.
Qed.

(** [add_record] fills such books from the empty book. *)
Lemma constructed_book_empty (now : datetime) : constructed_book now [].
Proof. split; constructor. Qed.

Lemma constructed_book_add_record (now : datetime) (book : AddressBook) (r : record) :
  constructed_book now book -> constructed now r ->
  constructed_book now (add_record book r).
Proof.
  intros [Hnd Hall] Hr. split; unfold add_record.
  - now apply dict_set_NoDup.
  - apply dict_set_Forall; [|exact Hall]. now split.
Qed.

(** ** The day count where the date exists

    Away from 29 February the count is defined, not negative, and 0 on the
    day itself. *)

Lemma days_before_year_succ (y : Z) :
  days_before_year (y + 1) = days_before_year y + (if is_leap y then 366 else 365).
Proof.
  unfold days_before_year, is_leap.
  replace (y + 1 - 1) with y by lia.
  destruct (Z.eqb_spec (y mod 4) 0), (Z.eqb_spec (y mod 100) 0), (Z.eqb_spec (y mod 400) 0);
    simpl; Z.div_mod_to_equations; lia.
Qed.

Lemma month_cases (m : Z) : 1 <= m <= 12 ->
  m = 1 \/ m = 2 \/ m = 3 \/ m = 4 \/ m = 5 \/ m = 6 \/ m = 7 \/ m = 8 \/ m = 9
  \/ m = 10 \/ m = 11 \/ m = 12.
Proof. lia. Qed.

Lemma days_before_month_bounds (y m : Z) :
  1 <= m <= 12 ->
  0 <= days_before_month y m
  /\ days_before_month y m + days_in_month y m <= (if is_leap y then 366 else 365).
Proof.
  intros H. destruct (month_cases m H) as [E|[E|[E|[E|[E|[E|[E|[E|[E|[E|[E|E]]]]]]]]]]];
    subst m; unfold days_before_month, days_in_month; simpl;
    destruct (is_leap y); simpl; lia.
Qed.

Lemma days_before_month_mono (y m m' : Z) :
  1 <= m -> m < m' -> m' <= 12 ->
  days_before_month y m + days_in_month y m <= days_before_month y m'.
Proof.
  intros H1 H2 H3.
  assert (Hm : 1 <= m <= 12) by lia. assert (Hm' : 1 <= m' <= 12) by lia.
  destruct (month_cases m Hm) as [E|[E|[E|[E|[E|[E|[E|[E|[E|[E|[E|E]]]]]]]]]]];
  destruct (month_cases m' Hm') as [E'|[E'|[E'|[E'|[E'|[E'|[E'|[E'|[E'|[E'|[E'|E']]]]]]]]]]];
    subst m m'; try lia;
    unfold days_before_month, days_in_month; simpl; destruct (is_leap y); simpl; lia.
Qed.

Lemma datetime_ymd_Ok (y m d : Z) (t : datetime) :
  datetime_ymd y m d = Ok t ->
  valid_date (mkDate y m d) = true /\ t = mkDatetime (mkDate y m d) 0.
Proof.
  unfold datetime_ymd, valid_date. simpl.
  destruct (_ && _); [|discriminate]. intros H. injection H as <-. auto.
Qed.

Lemma datetime_ymd_valid (y m d : Z) :
  valid_date (mkDate y m d) = true ->
  datetime_ymd y m d = Ok (mkDatetime (mkDate y m d) 0).
Proof. unfold datetime_ymd, valid_date. simpl. now intros ->. Qed.

Lemma valid_date_bounds (d : date) :
  valid_date d = true ->
  MINYEAR <= year d <= MAXYEAR /\ 1 <= month d <= 12
  /\ 1 <= day d <= days_in_month (year d) (month d).
Proof.
  unfold valid_date. rewrite !andb_true_iff, !Z.leb_le. tauto.
Qed.

Lemma date_gtb_false (a b : date) :
  date_gtb a b = false ->
  year a <= year b
  /\ (year a = year b -> month a <= month b
      /\ (month a = month b -> day a <= day b)).
Proof.
  intros H. destruct (Z_lt_le_dec (year b) (year a)) as [L|L].
  - assert (E : date_gtb a b = true) by (apply date_gtb_spec; lia). congruence.
  - split; [exact L|]. intros Ey.
    destruct (Z_lt_le_dec (month b) (month a)) as [M|M].
    + assert (E : date_gtb a b = true) by (apply date_gtb_spec; lia). congruence.
    + split; [exact M|]. intros Em.
      destruct (Z_lt_le_dec (day b) (day a)) as [D|D]; [|exact D].
      assert (E : date_gtb a b = true) by (apply date_gtb_spec; lia). congruence.
Qed.

Lemma days_left_nonneg (today : date) (bday : datetime) (n : Z) :
  valid_date today = true -> days_left today bday = Ok n -> 0 <= n.
Proof.
  intros Ht. unfold days_left.
  destruct (datetime_ymd (year today) _ _) as [nb|] eqn:E1; [|discriminate].
  apply datetime_ymd_Ok in E1 as [V1 ->]. cbn [bind dt_date].
  apply valid_date_bounds in Ht as (_ & Htm & Htd).
  apply valid_date_bounds in V1 as (_ & Hbm & Hbd). cbn [year month day] in Hbm, Hbd.
  destruct (date_gtb today _) eqn:G.
  - destruct (datetime_ymd (year today + 1) _ _) as [nb|] eqn:E2; [|discriminate].
    apply datetime_ymd_Ok in E2 as [V2 ->]. cbn [bind dt_date].
    intros H. injection H as <-.
    apply valid_date_bounds in V2 as (_ & _ & Hbd2). cbn [year month day] in Hbd2.
    unfold days_between, toordinal. cbn [year month day].
    rewrite days_before_year_succ.
    pose proof (days_before_month_bounds (year today) (month today) Htm).
    pose proof (days_before_month_bounds (year today + 1) (month (dt_date bday)) Hbm).
    destruct (is_leap (year today)); lia.
  - cbn [bind dt_date]. intros H. injection H as <-.
    apply date_gtb_false in G as (_ & G). cbn [year month day] in G.
    destruct (G eq_refl) as [Gm Gd].
    unfold days_between, toordinal. cbn [year month day].
    destruct (Z.eq_dec (month today) (month (dt_date bday))) as [Em|Em].
    + rewrite <- Em in *. specialize (Gd eq_refl). lia.
    + pose proof (days_before_month_mono (year today) (month today)
                    (month (dt_date bday))). lia.
Qed.

Lemma days_left_today (today : date) (bday : datetime) :
  valid_date today = true ->
  month (dt_date bday) = month today -> day (dt_date bday) = day today ->
  days_left today bday = Ok 0.
Proof.
  intros Ht Em Ed. unfold days_left. rewrite Em, Ed.
  rewrite datetime_ymd_valid by (now destruct today).
  cbn [bind dt_date]. destruct today as [y m d]. cbn [year month day].
  rewrite date_gtb_irrefl. cbn [bind dt_date]. unfold days_between. f_equal. lia.
Qed.

Lemma days_in_month_other_year (y y' m d : Z) :
  d <= days_in_month y m -> ~ (m = 2 /\ d = 29) -> d <= days_in_month y' m.
Proof.
  unfold days_in_month. intros H N.
  destruct (Z.eqb_spec m 2) as [->|_]; [|exact H].
  destruct (is_leap y), (is_leap y'); lia.
Qed.

Lemma days_left_defined (today : date) (bday : datetime) :
  valid_date today = true -> year today < MAXYEAR ->
  valid_date (dt_date bday) = true ->
  ~ (month (dt_date bday) = 2 /\ day (dt_date bday) = 29) ->
  exists n, days_left today bday = Ok n /\ 0 <= n.
Proof.
  intros Ht Hy Hb Hn.
  assert (V : forall y, MINYEAR <= y <= MAXYEAR ->
            valid_date (mkDate y (month (dt_date bday)) (day (dt_date bday))) = true).
  { intros y Hy'. apply valid_date_bounds in Hb as (_ & Hm & Hd).
    unfold valid_date. cbn [year month day].
    pose proof (days_in_month_other_year _ y _ _ (proj2 Hd) Hn).
    rewrite !andb_true_iff, !Z.leb_le. lia. }
  pose proof (valid_date_bounds _ Ht) as (Hyr & _).
  assert (E : exists n, days_left today bday = Ok n).
  { unfold days_left. rewrite (datetime_ymd_valid _ _ _ (V _ Hyr)). cbn [bind dt_date].
    destruct (date_gtb today _); [|cbn [bind]; eauto].
    rewrite datetime_ymd_valid by (apply V; unfold MINYEAR, MAXYEAR in *; lia).
    cbn [bind]. eauto. }
  destruct E as [n E]. exists n. split; [exact E|].
  exact (days_left_nonneg _ _ _ Ht E).
Qed.

Lemma days_to_birthday_defined (now : datetime) (r : record) (b : Birthday) :
  birthday r = BObj b ->
  valid_date (dt_date now) = true -> year (dt_date now) < MAXYEAR ->
  valid_date (dt_date (Birthday_value b)) = true ->
  ~ (month (dt_date (Birthday_value b)) = 2 /\ day (dt_date (Birthday_value b)) = 29) ->
  exists n, days_to_birthday now r = Ok (Some n) /\ 0 <= n.
Proof.
  intros Hb Ht Hy Hv Hn. unfold days_to_birthday. rewrite Hb. simpl.
  destruct (days_left_defined _ _ Ht Hy Hv Hn) as (n & -> & Hpos). simpl. eauto.
Qed.

Example days_to_birthday_ann :
  days_to_birthday november_2026 ann = Ok (Some 178)
  /\ days_to_birthday (mkDatetime (mkDate 2026 5 1) 0) ann = Ok (Some 0)
  /\ days_to_birthday (mkDatetime (mkDate 2026 5 2) 0) ann = Ok (Some 364).
Proof. vm_compute. repeat split. Qed.

(** ** The matcher and the language of a pattern *)

Local Open Scope string_scope.

Lemma rmatch_sound (n : nat) (r : regex) :
  forall fuel s k, rmatch n r fuel s k = true -> exists s', rm n r s s' /\ k s' = true.
Proof.
  induction r as [| |items|r1 IH1 r2 IH2|m r IH|r IH]; intros fuel s k H.
  - simpl in H. apply andb_true_iff in H as [Hn Hk]. apply Nat.eqb_eq in Hn.
    exists s. split; [now constructor|exact Hk].
  - simpl in H. destruct s as [|c [|c' s]]; [| |discriminate].
    + exists EmptyString. split; [constructor|exact H].
    + apply andb_true_iff in H as [Hc Hk]. apply Ascii.eqb_eq in Hc. subst c.
      exists newline. split; [constructor|exact Hk].
  - simpl in H. destruct s as [|c s]; [discriminate|].
    apply andb_true_iff in H as [Hc Hk]. exists s. split; [now constructor|exact Hk].
  - simpl in H. apply IH1 in H as (s1 & H1 & H). apply IH2 in H as (s2 & H2 & H).
    exists s2. split; [econstructor; eassumption|exact H].
  - revert s H. induction m as [|m IHm]; intros s H.
    + exists s. split; [constructor|exact H].
    + cbn in H. apply IH in H as (s1 & H1 & H).
      apply IHm in H as (s2 & H2 & H).
      exists s2. split; [econstructor; eassumption|exact H].
  - revert s H. induction fuel as [|fuel IHf]; intros s H.
    + cbn in H. apply IH in H as (s1 & H1 & H). simpl in H.
      exists s1. split; [now constructor|exact H].
    + cbn in H. apply IH in H as (s1 & H1 & H).
      apply orb_true_iff in H as [H|H].
      * apply andb_true_iff in H as [Hl H]. apply Nat.ltb_lt in Hl.
        apply IHf in H as (s2 & H2 & H).
        exists s2. split; [eapply rm_plusS; eassumption|exact H].
      * exists s1. split; [now constructor|exact H].
Qed.

Lemma rm_length (n : nat) (r : regex) (s s' : string) :
  rm n r s s' -> (String.length s' <= String.length s)%nat.
Proof. induction 1; simpl; lia. Qed.

Lemma rmatch_complete (n : nat) (r : regex) (s s' : string) :
  rm n r s s' ->
  forall fuel k, (String.length s <= fuel)%nat -> k s' = true ->
  rmatch n r fuel s k = true.
Proof.
  induction 1 as [s Hn| | |items c s Hc|r1 r2 s s1 s2 H1 IH1 H2 IH2|r s
                 |m r s s1 s2 H1 IH1 H2 IH2|r s s1 H1 IH1
                 |r s s1 s2 H1 IH1 Hl H2 IH2]; intros fuel k Hf Hk.
  - simpl. rewrite Hk, andb_true_r. now apply Nat.eqb_eq.
  - exact Hk.
  - simpl. exact Hk.
  - simpl. now rewrite Hc, Hk.
  - simpl. apply IH1; [exact Hf|]. apply IH2; [|exact Hk].
    apply rm_length in H1. lia.
  - exact Hk.
  - cbn. apply IH1; [exact Hf|].
    apply (IH2 fuel k); [|exact Hk]. apply rm_length in H1. lia.
  - destruct fuel; cbn; apply IH1; try exact Hf; rewrite Hk; [reflexivity|apply orb_true_r].
  - destruct fuel as [|fuel]; [lia|]. cbn. apply IH1; [exact Hf|].
    apply orb_true_iff. left. apply andb_true_iff. split; [now apply Nat.ltb_lt|].
    apply (IH2 fuel k); [lia|exact Hk].
Qed.

Lemma rm_plus_set (n : nat) (items : list cclass) (p rest : string) :
  p <> EmptyString -> all_in items p = true ->
  rm n (RPlus (RSet items)) (p ++ rest) rest.
Proof.
  induction p as [|c p IH]; [congruence|]. intros _ H. simpl in H.
  apply andb_true_iff in H as [Hc Hp]. simpl.
  destruct p as [|c' p].
  - apply rm_plus1. now constructor.
  - eapply rm_plusS; [now constructor|simpl; lia|]. apply IH; [discriminate|exact Hp].
Qed.

Lemma rm_set_inv (n : nat) (items : list cclass) (s s' : string) :
  rm n (RSet items) s s' -> exists c, s = String c s' /\ in_set items c = true.
Proof. inversion 1; subst. eauto. Qed.

Lemma rm_seq_inv (n : nat) (r1 r2 : regex) (s s' : string) :
  rm n (RSeq r1 r2) s s' -> exists s1, rm n r1 s s1 /\ rm n r2 s1 s'.
Proof. inversion 1; subst. eauto. Qed.

Lemma rm_plus_set_inv (n : nat) (items : list cclass) (s s' : string) :
  rm n (RPlus (RSet items)) s s' ->
  exists p, s = p ++ s' /\ p <> EmptyString /\ all_in items p = true.
Proof.
  intros H. remember (RPlus (RSet items)) as r eqn:Er.
  induction H as [| | | | | | |r s s1 H1 _|r s s1 s2 H1 _ Hl H2 IH2];
    try discriminate; injection Er as ->.
  - apply rm_set_inv in H1 as (c & -> & Hc). exists (String c EmptyString).
    simpl. rewrite Hc. repeat split; discriminate.
  - apply rm_set_inv in H1 as (c & -> & Hc).
    destruct (IH2 eq_refl) as (p & -> & _ & Hp).
    exists (String c p). simpl. rewrite Hc, Hp. repeat split; discriminate.
Qed.

Lemma count_char_app (c : ascii) (a b : string) :
  count_char c (a ++ b) = (count_char c a + count_char c b)%nat.
Proof. induction a; simpl; [reflexivity|]. rewrite IHa. lia. Qed.

Lemma all_in_app (items : list cclass) (a b : string) :
  all_in items (a ++ b) = all_in items a && all_in items b.
Proof. induction a; simpl; [reflexivity|]. now rewrite IHa, andb_assoc. Qed.

Lemma all_in_no_char (items : list cclass) (c : ascii) (s : string) :
  in_set items c = false -> all_in items s = true -> count_char c s = O.
Proof.
  intros Hc. induction s as [|d s IH]; simpl; [reflexivity|]. intros H.
  apply andb_true_iff in H as [Hd Hs]. rewrite (IH Hs).
  destruct (Ascii.eqb_spec d c) as [->|_]; [congruence|reflexivity].
Qed.

Lemma all_in_weaken (items items' : list cclass) (s : string) :
  (forall c, in_set items c = true -> in_set items' c = true) ->
  all_in items s = true -> all_in items' s = true.
Proof.
  intros Hw. induction s as [|d s IH]; simpl; [reflexivity|]. intros H.
  apply andb_true_iff in H as [Hd Hs]. now rewrite (Hw _ Hd), (IH Hs).
Qed.

Lemma append_assoc_str (a b c : string) : (a ++ b) ++ c = a ++ (b ++ c).
Proof. induction a; simpl; congruence. Qed.

Lemma in_set_word_email (c : ascii) :
  in_set [CWord] c = true -> in_set email_chars c = true.
Proof. unfold in_set. simpl. rewrite orb_false_r. now intros ->. Qed.

Lemma rm_dot_word_inv (n : nat) (s s' : string) :
  rm n dot_word s s' ->
  exists w, s = String "." w ++ s' /\ all_in email_chars w = true.
Proof.
  intros H. apply rm_seq_inv in H as (s1 & H1 & H2).
  apply rm_set_inv in H1 as (c & -> & Hc).
  apply rm_plus_set_inv in H2 as (w & -> & _ & Hw).
  unfold in_set in Hc. simpl in Hc. rewrite orb_false_r in Hc.
  apply Ascii.eqb_eq in Hc. subst c. exists w. split; [reflexivity|].
  exact (all_in_weaken _ _ _ in_set_word_email Hw).
Qed.

Lemma rm_dot_words_inv (n : nat) (s s' : string) :
  rm n (RPlus dot_word) s s' ->
  exists g, s = String "." g ++ s' /\ all_in email_chars g = true.
Proof.
  intros H. remember (RPlus dot_word) as r eqn:Er.
  induction H as [| | | | | | |r s s1 H1 _|r s s1 s2 H1 _ Hl H2 IH2];
    try discriminate; injection Er as ->.
  - exact (rm_dot_word_inv _ _ _ H1).
  - apply rm_dot_word_inv in H1 as (w & -> & Hw).
    destruct (IH2 eq_refl) as (g & -> & Hg).
    exists (w ++ String "." g). split.
    + simpl. now rewrite append_assoc_str.
    + rewrite all_in_app, Hw. simpl. exact Hg.
Qed.

Lemma has_char_app_r (c : ascii) (a b : string) :
  has_char c b = true -> has_char c (a ++ b) = true.
Proof. induction a; simpl; [auto|]. intros H. now rewrite IHa, orb_true_r. Qed.

Lemma rm_eol_inv (n : nat) (s s' : string) :
  rm n REol s s' -> s' = s /\ (s = EmptyString \/ s = newline).
Proof. inversion 1; subst; auto. Qed.

Lemma rm_bol_inv (n : nat) (s s' : string) : rm n RBol s s' -> s' = s.
Proof. inversion 1; subst; auto. Qed.

(** X1.  An accepted email has exactly one [@], something before it and a
    dot somewhere after it. *)
Theorem validate_email_needs_at_and_dot (s : string) :
  validate_email s = true ->
  count_char "@" s = 1%nat
  /\ exists local domain,
       s = local ++ String "@" domain
       /\ local <> EmptyString /\ has_char "." domain = true.
Proof.
  unfold validate_email, re_match, email_pattern. cbn [rseq]. intros H.
  apply rmatch_sound in H as (s' & H & _).
  apply rm_seq_inv in H as (s0 & H0 & H). apply rm_bol_inv in H0. subst s0.
  apply rm_seq_inv in H as (s1 & H1 & H).
  apply rm_plus_set_inv in H1 as (l & -> & Hl & Hlc).
  apply rm_seq_inv in H as (s2 & H2 & H).
  apply rm_set_inv in H2 as (c & -> & Hc).
  unfold in_set in Hc. simpl in Hc. rewrite orb_false_r in Hc.
  apply Ascii.eqb_eq in Hc. subst c.
  apply rm_seq_inv in H as (s3 & H3 & H).
  apply rm_plus_set_inv in H3 as (d & -> & Hd & Hdc).
  apply rm_seq_inv in H as (s4 & H4 & H).
  apply (rm_dot_words_inv _ s3 s4) in H4 as (g & -> & Hg).
  apply rm_eol_inv in H as [_ He].
  assert (Hat : in_set email_chars "@" = false) by reflexivity.
  split.
  - rewrite count_char_app. cbn [count_char]. rewrite count_char_app.
    cbn [append count_char]. rewrite count_char_app.
    rewrite (all_in_no_char _ _ _ Hat Hlc), (all_in_no_char _ _ _ Hat Hdc),
            (all_in_no_char _ _ _ Hat Hg).
    destruct He as [->| ->]; reflexivity.
  - exists l, (d ++ String "." g ++ s4). split; [reflexivity|]. split; [exact Hl|].
    apply has_char_app_r. reflexivity.
Qed.

Lemma append_empty_r (s : string) : s ++ EmptyString = s.
Proof. induction s; simpl; congruence. Qed.

Lemma email_pattern_matches (local domain tld e : string) :
  local <> EmptyString -> all_in email_chars local = true ->
  domain <> EmptyString -> all_in email_chars domain = true ->
  tld <> EmptyString -> all_in [CWord] tld = true ->
  e = EmptyString \/ e = newline ->
  validate_email (local ++ String "@" (domain ++ String "." (tld ++ e))) = true.
Proof.
  intros Hl Hlc Hd Hdc Ht Htc He. unfold validate_email, re_match.
  apply (rmatch_complete _ _ _ e); [|lia|reflexivity].
  unfold email_pattern. cbn [rseq].
  eapply rm_seq; [now constructor|].
  eapply rm_seq; [apply rm_plus_set; eassumption|].
  eapply rm_seq; [constructor; reflexivity|].
  eapply rm_seq; [apply rm_plus_set; eassumption|].
  eapply rm_seq.
  - apply rm_plus1. eapply rm_seq; [constructor; reflexivity|].
    apply rm_plus_set; eassumption.
  - destruct He as [->| ->]; constructor.
Qed.

(** X2.  [local@domain.tld] is accepted when the local part and the domain
    are not empty and made of word characters, dots and hyphens, and the
    last label is not empty and made of word characters; it is accepted
    with a newline after it as well. *)
Theorem validate_email_accepts (local domain tld : string) :
  local <> EmptyString -> all_in email_chars local = true ->
  domain <> EmptyString -> all_in email_chars domain = true ->
  tld <> EmptyString -> all_in [CWord] tld = true ->
  validate_email (local ++ String "@" (domain ++ String "." tld)) = true
  /\ validate_email (local ++ String "@" (domain ++ String "." (tld ++ newline))) = true.
Proof.
  intros Hl Hlc Hd Hdc Ht Htc. split.
  - pose proof (email_pattern_matches local domain tld EmptyString
                  Hl Hlc Hd Hdc Ht Htc (or_introl eq_refl)) as H.
    now rewrite append_empty_r in H.
  - apply email_pattern_matches; auto.
Qed.

Local Open Scope Z_scope.
Local Open Scope list_scope.

(** ** edit_phone: the first entry, not validated *)

Lemma replace_first_found (l1 l2 : list phone_item) (old_phone new_phone : string) :
  forallb (fun p => negb (phone_eq_str p old_phone)) l1 = true ->
  replace_first (l1 ++ PStr old_phone :: l2) old_phone new_phone
  = Some (l1 ++ PStr new_phone :: l2).
Proof.
  induction l1 as [|p l1 IH]; simpl; intros H.
  - now rewrite String.eqb_refl.
  - apply andb_true_iff in H as [Hp Hl]. apply negb_true_iff in Hp.
    now rewrite Hp, (IH Hl).
Qed.

Lemma replace_first_absent (ps : list phone_item) (old_phone new_phone : string) :
  forallb (fun p => negb (phone_eq_str p old_phone)) ps = true ->
  replace_first ps old_phone new_phone = None.
Proof.
  induction ps as [|p ps IH]; simpl; intros H; [reflexivity|].
  apply andb_true_iff in H as [Hp Hl]. apply negb_true_iff in Hp.
  now rewrite Hp, (IH Hl).
Qed.

(** X3.  [edit_phone] puts [new_phone], whatever it is, in the place of the
    first entry equal to [old_phone] and leaves the other entries; when no
    entry is equal to [old_phone] it returns the not-found message and the
    record as it was. *)
Theorem edit_phone_first_entry_unvalidated
    (r : record) (l1 l2 : list phone_item) (old_phone new_phone : string) :
  forallb (fun p => negb (phone_eq_str p old_phone)) l1 = true ->
  (phones r = l1 ++ PStr old_phone :: l2 ->
   edit_phone r old_phone new_phone
   = (("Phone number updated for " ++ name r ++ newline ++ "Old phone number: "
       ++ old_phone ++ newline ++ "New phone number: " ++ new_phone)%string,
      set_phones r (l1 ++ PStr new_phone :: l2)))
  /\ (phones r = l1 ->
      edit_phone r old_phone new_phone
      = (("Error: Old phone number " ++ old_phone ++ " not found in " ++ name r
          ++ "'s record.")%string, r)).
Proof.
  intros H. unfold edit_phone. split; intros ->.
  - now rewrite (replace_first_found _ _ _ _ H).
  - now rewrite (replace_first_absent _ _ _ H).
Qed.

(** ** process_phones and its pieces *)

Lemma process_numbers_invalid (l : list string) (x : string) :
  In x l -> validate_phone x = false ->
  exists token,
    validate_phone token = false
    /\ process_numbers l
       = Raise (ValueError ("Error: Invalid phone number: " ++ token)%string).
Proof.
  induction l as [|y l IH]; simpl; intros Hin Hx; [contradiction|].
  destruct (validate_phone y) eqn:Hy.
  - destruct Hin as [->|Hin]; [congruence|].
    destruct (IH Hin Hx) as (token & Ht & ->). simpl. eauto.
  - eauto.
Qed.

Lemma process_numbers_raises (l : list string) (e : exn) :
  process_numbers l = Raise e ->
  exists token,
    validate_phone token = false
    /\ e = ValueError ("Error: Invalid phone number: " ++ token)%string.
Proof.
  induction l as [|y l IH]; simpl; [discriminate|].
  destruct (validate_phone y) eqn:Hy.
  - simpl. destruct (process_numbers l) as [ps|e']; simpl; [discriminate|].
    intros H. injection H as <-. now apply IH.
  - intros H. injection H as <-. eauto.
Qed.

Lemma process_phones_invalid (phones : list phone_item) (entry : phone_item) (x : string) :
  In entry phones ->
  In x (re_split phone_separators (phone_str entry)) ->
  validate_phone x = false ->
  exists token,
    validate_phone token = false
    /\ process_phones phones
       = Raise (ValueError ("Error: Invalid phone number: " ++ token)%string).
Proof.
  induction phones as [|p phones IH]; simpl; intros Hin Hx Hv; [contradiction|].
  destruct (process_numbers (re_split phone_separators (phone_str p))) as [ps|e] eqn:Hn.
  - destruct Hin as [->|Hin].
    + destruct (process_numbers_invalid _ _ Hx Hv) as (token & _ & E). congruence.
    + destruct (IH Hin Hx Hv) as (token & Ht & ->). simpl. eauto.
  - apply process_numbers_raises in Hn as (token & Ht & ->). simpl. eauto.
Qed.


Lemma re_split_aux_trailing (items : list cclass) (skipping : bool) (s : string) (c : ascii) :
  in_set items c = true ->
  exists pieces,
    re_split_aux items skipping (s ++ String c EmptyString)%string
    = pieces ++ [EmptyString]
    /\ (skipping = false -> pieces <> []).
Proof.
  intros Hc. revert skipping. induction s as [|d s IH]; intros skipping; simpl.
  - rewrite Hc. destruct skipping.
    + exists []. split; [reflexivity|discriminate].
    + exists [EmptyString]. split; [reflexivity|discriminate].
  - destruct (in_set items d).
    + destruct (IH true) as (pieces & E & _). rewrite E. destruct skipping.
      * exists pieces. split; [reflexivity|discriminate].
      * exists (EmptyString :: pieces). split; [reflexivity|discriminate].
    + destruct (IH false) as (pieces & E & Hne). rewrite E.
      destruct pieces as [|piece pieces]; [now elim (Hne eq_refl)|].
      simpl. exists (String d piece :: pieces). split; [reflexivity|discriminate].
Qed.

Lemma re_split_stray (s : string) :
  s = EmptyString
  \/ (exists c s', s = String c s' /\ in_set phone_separators c = true)
  \/ (exists c s', s = (s' ++ String c EmptyString)%string
                   /\ in_set phone_separators c = true) ->
  In EmptyString (re_split phone_separators s).
Proof.
  intros [->|[(c & s' & -> & Hc)|(c & s' & -> & Hc)]]; unfold re_split.
  - simpl. now left.
  - cbn [re_split_aux]. rewrite Hc. now left.
  - destruct (re_split_aux_trailing phone_separators false s' c Hc) as (pieces & -> & _).
    apply in_or_app. right. now left.
Qed.

(** X5.  A phone entry that is empty, or begins or ends with a comma or a
    whitespace character, makes the constructor raise ValueError: the split
    leaves an empty piece. *)
Theorem Record_init_stray_separator
    (n a : string) (phones : list phone_item) (es : option (list Email))
    (b : option Birthday) (entry : phone_item) :
  In entry phones ->
  phone_str entry = EmptyString
  \/ (exists c s', phone_str entry = String c s' /\ in_set phone_separators c = true)
  \/ (exists c s', phone_str entry = (s' ++ String c EmptyString)%string
                   /\ in_set phone_separators c = true) ->
  exists msg,
    Record_init (mkName (JStr n)) (mkAddress (JStr a)) phones es b
    = Raise (ValueError msg).
Proof.
  intros Hin Hs. unfold Record_init. simpl.
  destruct (process_phones_invalid phones entry EmptyString Hin (re_split_stray _ Hs))
    as (token & _ & ->); [reflexivity|]. simpl. eauto.
Qed.

Lemma re_split_aux_free_any (items : list cclass) (skipping : bool) (s : string) :
  free_of items s = true -> re_split_aux items skipping s = [s].
Proof.
  destruct s as [|c s]; [reflexivity|]. simpl. intros H.
  apply andb_true_iff in H as [Hc Hs]. apply negb_true_iff in Hc. rewrite Hc.
  now rewrite (re_split_free items s Hs : re_split_aux items false s = [s]).
Qed.

Lemma re_split_aux_skip (items : list cclass) (seps b : string) :
  all_in items seps = true -> free_of items b = true ->
  re_split_aux items true (seps ++ b)%string = [b].
Proof.
  intros Hs Hb. induction seps as [|c seps IH]; simpl.
  - now apply re_split_aux_free_any.
  - simpl in Hs. apply andb_true_iff in Hs as [Hc Hs]. rewrite Hc. now apply IH.
Qed.

Lemma re_split_two (items : list cclass) (a seps b : string) :
  free_of items a = true -> seps <> EmptyString -> all_in items seps = true ->
  free_of items b = true ->
  re_split items (a ++ seps ++ b)%string = [a; b].
Proof.
  intros Ha Hne Hs Hb. unfold re_split. induction a as [|c a IH]; simpl.
  - destruct seps as [|d seps]; [congruence|]. simpl in Hs |- *.
    apply andb_true_iff in Hs as [Hd Hs]. rewrite Hd.
    now rewrite (re_split_aux_skip _ _ _ Hs Hb).
  - simpl in Ha. apply andb_true_iff in Ha as [Hc Ha]. apply negb_true_iff in Hc.
    now rewrite Hc, (IH Ha).
Qed.

(** X6.  One entry with two numbers and commas or whitespace between them
    is processed as the two numbers given as two entries. *)
Theorem process_phones_one_entry_or_two (a seps b : string) :
  free_of phone_separators a = true ->
  seps <> EmptyString -> all_in phone_separators seps = true ->
  free_of phone_separators b = true ->
  process_phones [PStr (a ++ seps ++ b)%string] = process_phones [PStr a; PStr b].
Proof.
  intros Ha Hne Hs Hb. cbn [process_phones phone_str].
  rewrite (re_split_two _ _ _ _ Ha Hne Hs Hb), (re_split_free _ _ Ha), (re_split_free _ _ Hb).
  cbn [process_numbers]. unfold Phone_init.
  destruct (validate_phone a); [|reflexivity].
  destruct (validate_phone b); reflexivity.
Qed.

(** ** Record.__str__ *)

(** X7.  The text of a record is the same once [save_to_file] has turned
    its birthday into a string, and once the record is back from the
    file. *)
Theorem Record_str_unchanged_by_save_and_load (r : record) :
  Record_str (stringified r) = Record_str r
  /\ Record_str (reloaded r) = Record_str r.
Proof.
  unfold Record_str, stringified, reloaded.
  destruct r as [n a ps es b]. destruct b as [|o|s];
    cbn [phones name address emails birthday set_birthday birthday_text
         birthday_truthy Birthday_value dt_date];
    rewrite ?strftime_nonempty; split; reflexivity.
Qed.

Lemma mapM_phone_text (ps : list phone_item) :
  forallb is_str ps = true -> mapM phone_text ps = Ok (map phone_str ps).
Proof.
  induction ps as [|p ps IH]; simpl; intros H; [reflexivity|].
  apply andb_true_iff in H as [Hp Hps]. destruct p; [|discriminate].
  simpl. now rewrite (IH Hps).
Qed.

(** ** days_to_birthday after a save *)

Lemma stringify_birthdays_strings (book : AddressBook) :
  Forall (fun kv => match birthday (snd kv) with BObj _ => False | _ => True end)
         (snd (stringify_birthdays book))
  \/ exists e, fst (stringify_birthdays book) = Raise e.
Proof.
  induction book as [|[k r] book IH]; simpl; [left; constructor|].
  destruct (birthday r) as [|o|s] eqn:Hb; simpl.
  - destruct (stringify_birthdays book) as [res rest]. simpl in *.
    destruct IH as [IH|IH]; [left|right; exact IH].
    constructor; [simpl; now rewrite Hb|exact IH].
  - destruct (stringify_birthdays book) as [res rest]. simpl in *.
    destruct IH as [IH|IH]; [left|right; exact IH].
    constructor; [exact I|exact IH].
  - destruct (negb (s =? "")%string) eqn:Hs; simpl; [right; eauto|].
    destruct (stringify_birthdays book) as [res rest]. simpl in *.
    destruct IH as [IH|IH]; [left|right; exact IH].
    constructor; [simpl; now rewrite Hb|exact IH].
Qed.

(** X8.  After a save that returned, [days_to_birthday] raises
    AttributeError on every record of the book that has a birthday. *)
Theorem days_to_birthday_after_save
    (env : environment) (now : datetime) (book book' : AddressBook) (filename : string)
    (fs fs' : filesystem) (k : string) (r : record) :
  save_to_file env book filename fs = (Ok tt, book', fs') ->
  In (k, r) book' ->
  birthday_truthy (birthday r) = true ->
  days_to_birthday now r = Raise AttributeError.
Proof.
  unfold save_to_file. intros H Hin Ht.
  destruct (open_write env fs filename) as [fs1|e]; [|discriminate].
  pose proof (stringify_birthdays_strings book) as Hs.
  destruct (stringify_birthdays book) as [res0 book0]. simpl in Hs.
  destruct res0 as [[]|e]; [|discriminate].
  destruct (mapM record_to_json (values book0)); [|discriminate].
  injection H as <- _. destruct Hs as [Hs|[e He]]; [|discriminate].
  apply (proj1 (Forall_forall _ _) Hs) in Hin. simpl in Hin.
  unfold days_to_birthday. rewrite Ht. simpl.
  destruct (birthday r); [discriminate|contradiction|reflexivity].
Qed.

(** ** The range of the day count *)

Lemma is_leap_succ (y : Z) : is_leap y = true -> is_leap (y + 1) = false.
Proof.
  unfold is_leap. intros H. apply andb_true_iff in H as [H _].
  apply Z.eqb_eq in H.
  destruct (Z.eqb_spec ((y + 1) mod 4) 0) as [E|E]; [|reflexivity].
  exfalso. Z.div_mod_to_equations. lia.
Qed.

Lemma days_before_month_next_year (y m : Z) :
  1 <= m <= 12 ->
  days_before_month (y + 1) m
  <= days_before_month y m + (if is_leap (y + 1) then 1 else 0).
Proof.
  intros H. destruct (month_cases m H) as [E|[E|[E|[E|[E|[E|[E|[E|[E|[E|[E|E]]]]]]]]]]];
    subst m; unfold days_before_month, days_in_month; simpl;
    destruct (is_leap y), (is_leap (y + 1)); simpl; lia.
Qed.

Lemma days_left_range (today : date) (bday : datetime) (n : Z) :
  valid_date today = true -> days_left today bday = Ok n ->
  0 <= n <= 365
  /\ (n = 0 <-> month (dt_date bday) = month today /\ day (dt_date bday) = day today).
Proof.
  intros Ht. unfold days_left.
  destruct (datetime_ymd (year today) _ _) as [nb|] eqn:E1; [|discriminate].
  apply datetime_ymd_Ok in E1 as [V1 ->]. cbn [bind dt_date].
  apply valid_date_bounds in Ht as (_ & Htm & Htd).
  apply valid_date_bounds in V1 as (_ & Hbm & Hbd). cbn [year month day] in Hbm, Hbd.
  pose proof (days_before_month_bounds (year today) (month today) Htm) as Bt.
  pose proof (days_before_month_bounds (year today) (month (dt_date bday)) Hbm) as Bb.
  destruct (date_gtb today _) eqn:G.
  - destruct (datetime_ymd (year today + 1) _ _) as [nb|] eqn:E2; [|discriminate].
    apply datetime_ymd_Ok in E2 as [V2 ->]. cbn [bind dt_date].
    intros H. injection H as <-.
    apply valid_date_bounds in V2 as (_ & _ & Hbd2). cbn [year month day] in Hbd2.
    apply date_gtb_spec in G. cbn [year month day] in G.
    unfold days_between, toordinal. cbn [year month day].
    rewrite days_before_year_succ.
    pose proof (days_before_month_bounds (year today + 1) (month (dt_date bday)) Hbm) as Bb'.
    pose proof (days_before_month_next_year (year today) (month (dt_date bday)) Hbm) as Bn.
    assert (Hlt : days_before_month (year today) (month (dt_date bday)) + day (dt_date bday)
                  < days_before_month (year today) (month today) + day today).
    { destruct G as [G|[_ [G|[G1 G2]]]]; [lia| |rewrite G1; lia].
      pose proof (days_before_month_mono (year today) (month (dt_date bday)) (month today)).
      lia. }
    pose proof (is_leap_succ (year today)) as Hl.
    destruct (is_leap (year today)), (is_leap (year today + 1));
      try (specialize (Hl eq_refl); discriminate); lia.
  - cbn [bind dt_date]. intros H. injection H as <-.
    apply date_gtb_false in G as (_ & G). cbn [year month day] in G.
    destruct (G eq_refl) as [Gm Gd].
    unfold days_between, toordinal. cbn [year month day].
    destruct (Z.eq_dec (month today) (month (dt_date bday))) as [Em|Em].
    + rewrite <- Em in *. specialize (Gd eq_refl).
      destruct (is_leap (year today)); lia.
    + pose proof (days_before_month_mono (year today) (month today)
                    (month (dt_date bday))).
      destruct (is_leap (year today)); lia.
Qed.

(** X9.  A day count that [days_to_birthday] returns is between 0 and 365,
    and it is 0 exactly when the month and the day of the birthday are
    those of today. *)
Theorem days_to_birthday_range (now : datetime) (r : record) (b : Birthday) (n : Z) :
  birthday r = BObj b ->
  valid_date (dt_date now) = true ->
  days_to_birthday now r = Ok (Some n) ->
  0 <= n <= 365
  /\ (n = 0 <-> month (dt_date (Birthday_value b)) = month (dt_date now)
                /\ day (dt_date (Birthday_value b)) = day (dt_date now)).
Proof.
  intros Hb Ht. unfold days_to_birthday. rewrite Hb. simpl.
  destruct (days_left (dt_date now) (Birthday_value b)) as [m|] eqn:E; [|discriminate].
  simpl. intros H. injection H as <-. exact (days_left_range _ _ _ Ht E).
Qed.

(** X10.  On a book whose birthdays are [None] or [Birthday] values and
    whose day counts can all be computed, a record of the book is among the
    contacts returned for [days] exactly when [days] is what
    [days_to_birthday] returns for it; the book is left as it was. *)
Theorem get_upcoming_birthday_contacts_days_to_birthday
    (now : datetime) (book : AddressBook) (k : string) (r : record) (n days : Z) :
  forallb (fun kv => birthday_is_date (snd kv)) book = true ->
  forallb (fun kv => upcoming_body_ok now (snd kv)) book = true ->
  In (k, r) book ->
  days_to_birthday now r = Ok (Some n) ->
  exists found,
    get_upcoming_birthday_contacts now book days = (Ok found, book)
    /\ (In r found <-> days = n).
Proof.
  intros Hd Hok Hin Hn.
  rewrite (get_upcoming_birthday_contacts_exact now book days Hd Hok).
  eexists. split; [reflexivity|]. rewrite filter_In.
  assert (Hv : In r (values book)) by (apply in_map_iff; now exists (k, r)).
  unfold days_to_birthday in Hn. unfold due_in.
  destruct (birthday r) as [|o|s] eqn:Hb; simpl in Hn; [discriminate| |].
  - destruct (days_left (dt_date now) (Birthday_value o)) as [m|]; [|discriminate].
    simpl in Hn. injection Hn as <-. rewrite Z.eqb_eq. intuition congruence.
  - assert (Hs : birthday_is_date r = true).
    { exact (proj1 (forallb_forall _ _) Hd (k, r) Hin). }
    unfold birthday_is_date in Hs. rewrite Hb in Hs. discriminate.
Qed.

(** ** Lookup in the dict *)

Lemma assoc_dict_set_same {A : Type} (k : string) (v : A) (d : list (string * A)) :
  assoc k (dict_set k v d) = Some v.
Proof.
  induction d as [|[k' v'] d IH]; simpl; [now rewrite String.eqb_refl|].
  destruct (String.eqb_spec k' k) as [->|Hne]; simpl.
  - now rewrite String.eqb_refl.
  - destruct (String.eqb_spec k' k); [congruence|exact IH].
Qed.

Lemma assoc_dict_set_other {A : Type} (k k' : string) (v : A) (d : list (string * A)) :
  k' <> k -> assoc k' (dict_set k v d) = assoc k' d.
Proof.
  intros Hne. induction d as [|[k0 v0] d IH]; simpl.
  - destruct (String.eqb_spec k k'); [congruence|reflexivity].
  - destruct (String.eqb_spec k0 k) as [->|H0]; simpl.
    + destruct (String.eqb_spec k k'); [congruence|reflexivity].
    + destruct (String.eqb_spec k0 k'); [reflexivity|exact IH].
Qed.

Lemma dict_set_present {A : Type} (k : string) (v : A) (d : list (string * A)) :
  dict_has k d = true -> map fst (dict_set k v d) = map fst d.
Proof.
  unfold dict_has. induction d as [|[k' v'] d IH]; simpl; [discriminate|].
  destruct (String.eqb_spec k' k) as [->|Hne]; simpl; [reflexivity|].
  intros H. now rewrite (IH H).
Qed.

Lemma dict_has_In {A : Type} (k : string) (d : list (string * A)) :
  dict_has k d = true <-> In k (map fst d).
Proof.
  unfold dict_has. induction d as [|[k' v'] d IH]; simpl; [split; [discriminate|tauto]|].
  destruct (String.eqb_spec k' k) as [->|Hne]; [tauto|].
  rewrite IH. tauto.
Qed.

(** X11.  After [add_record] the record is under its name and every other
    key holds what it held; a name already in the book keeps its place, a
    new name is added at the end. *)
Theorem add_record_lookup (book : AddressBook) (r : record) (k : string) :
  assoc (name r) (add_record book r) = Some r
  /\ (k <> name r -> assoc k (add_record book r) = assoc k book)
  /\ (dict_has (name r) book = true ->
      map fst (add_record book r) = map fst book)
  /\ (dict_has (name r) book = false ->
      add_record book r = book ++ [(name r, r)]).
Proof.
  unfold add_record. split; [apply assoc_dict_set_same|].
  split; [apply assoc_dict_set_other|]. split; [apply dict_set_present|].
  intros H. apply dict_set_fresh. intros Hin. apply dict_has_In in Hin. congruence.
Qed.

(** ** search *)

Lemma search_phones_unseen query (r : record) ps found names :
  forallb is_str ps = true -> mem (name r) names = false ->
  search_phones query r ps found names
  = Ok (if existsb (fun p => contains query (lower (phone_str p))) ps
        then (found ++ [r], name r :: names)
        else (found, names)).
Proof.
  intros Hs Hm. induction ps as [|p ps IH]; simpl; [reflexivity|].
  simpl in Hs. apply andb_true_iff in Hs as [Hp Hps].
  destruct p as [s|]; [|discriminate]. simpl. rewrite Hm. simpl.
  destruct (contains query (lower s)); simpl.
  - apply search_phones_seen; [exact Hps|apply mem_head].
  - now apply IH.
Qed.

Lemma mem_cons_other (x y : string) (s : list string) :
  x <> y -> mem x (y :: s) = mem x s.
Proof.
  intros H. unfold mem. simpl. destruct (String.eqb_spec x y); [congruence|reflexivity].
Qed.

Lemma search_loop_hits (query : string) (records : list record) found names :
  forallb str_phones records = true ->
  NoDup (map name records) ->
  (forall r, In r records -> mem (name r) names = false) ->
  search_loop query records found names
  = Ok (found ++ flat_map (search_hits query) records).
Proof.
  revert found names. induction records as [|r records IH]; intros found names Hs Hnd Hm.
  - simpl. now rewrite app_nil_r.
  - cbn [forallb] in Hs. apply andb_true_iff in Hs as [Hr Hs].
    cbn [map] in Hnd. inversion Hnd as [|? ? Hnotin Hnd']; subst.
    assert (Hrn : mem (name r) names = false) by (apply Hm; now left).
    assert (Hrest : forall names', (names' = names \/ names' = name r :: names) ->
              forall r', In r' records -> mem (name r') names' = false).
    { intros names' [->| ->] r' Hin; [apply Hm; now right|].
      rewrite mem_cons_other; [apply Hm; now right|].
      intros E. apply Hnotin. rewrite <- E. now apply in_map. }
    cbn [search_loop flat_map]. rewrite Hrn. cbn [negb]. rewrite andb_true_r.
    unfold search_hits at 1, name_or_phone_match, search_emails, email_match.
    destruct (contains query (lower (name r))); cbn [orb].
    + rewrite (search_phones_seen _ _ _ _ _ Hr (mem_head (name r) names)).
      rewrite IH; [|exact Hs|exact Hnd'|apply Hrest; now right].
      destruct (existsb _ (emails r)); now rewrite <- ?app_assoc.
    + rewrite (search_phones_unseen _ _ _ _ _ Hr Hrn).
      destruct (existsb _ (phones r)).
      * rewrite IH; [|exact Hs|exact Hnd'|apply Hrest; now right].
        destruct (existsb _ (emails r)); now rewrite <- ?app_assoc.
      * rewrite IH; [|exact Hs|exact Hnd'|apply Hrest; now left].
        destruct (existsb _ (emails r)); now rewrite <- ?app_assoc.
Qed.

(** X12.  On a book whose phones are strings and whose records have
    different names, a search returns, in the order of the book, each record
    once if the query is in its name or in one of its phones, and once more
    if the query is in one of its emails. *)
Theorem search_records_hits (book : AddressBook) (query : string) :
  forallb str_phones (values book) = true ->
  NoDup (map name (values book)) ->
  search_records book query
  = Ok (flat_map (search_hits (lower query)) (values book)).
Proof.
  intros Hs Hnd. unfold search_records.
  now rewrite (search_loop_hits _ _ [] [] Hs Hnd).
Qed.

(** ** What a load returns *)

Lemma strptime_valid (s : string) (t : datetime) :
  strptime s = Ok t -> valid_datetime t = true.
Proof.
  unfold strptime.
  repeat match goal with
         | |- match ?x with _ => _ end = _ -> _ => destruct x
         | |- (if ?x then _ else _) = _ -> _ => destruct x
         | |- Raise _ = _ -> _ => discriminate
         end.
  intros H. apply datetime_ymd_Ok in H as [Hv ->].
  unfold valid_datetime. cbn [dt_date dt_time]. now rewrite Hv.
Qed.

Lemma mapM_Forall2 {A B : Type} (f : A -> result B) (l : list A) (out : list B) :
  mapM f l = Ok out -> Forall2 (fun x y => f x = Ok y) l out.
Proof.
  revert out. induction l as [|x l IH]; simpl; intros out H.
  - injection H as <-. constructor.
  - destruct (f x) as [y|] eqn:E; [|discriminate]. simpl in H.
    destruct (mapM f l) as [ys|]; [|discriminate]. simpl in H.
    injection H as <-. constructor; auto.
Qed.

Lemma load_record_constructed (now : datetime) (record_data : json) (r : record) :
  load_record now record_data = Ok r -> constructed now r.
Proof.
  unfold load_record. intros H.
  destruct (getitem record_data "name") as [n|]; [|discriminate].
  destruct (getitem record_data "address") as [a|]; [|discriminate].
  destruct (getitem record_data "phones") as [psj|]; [|discriminate].
  simpl in H. destruct (iter psj) as [ps|]; [|discriminate].
  simpl in H. destruct (mapM Phone_init ps) as [phs|] eqn:Hps; [|discriminate].
  destruct (getitem record_data "emails") as [esj|]; [|discriminate].
  simpl in H. destruct (iter esj) as [es|]; [|discriminate].
  simpl in H. destruct (mapM Email_init es) as [ems|] eqn:Hes; [|discriminate].
  destruct (getitem record_data "birthday") as [b|]; [|discriminate].
  simpl in H.
  assert (Hems : Forall (fun e => Email_init (JStr (Email_value e)) = Ok e) ems).
  { apply mapM_Forall2 in Hes. clear -Hes.
    induction Hes as [|x e l l' Hx _ IH]; constructor; [|exact IH].
    unfold Email_init in Hx |- *. destruct x; try discriminate.
    destruct (validate_email s) eqn:Hv; [|discriminate]. injection Hx as <-.
    simpl. now rewrite Hv. }
  destruct (truthy b).
  - destruct (strptime_value b) as [value|] eqn:Hsv; [|discriminate]. simpl in H.
    destruct (Birthday_init now value) as [bd|] eqn:Hbd; [|discriminate]. simpl in H.
    exists (mkName n), (mkAddress a), (map PObj phs), (Some ems), (Some bd).
    split; [exact H|]. split; [exact Hems|].
    assert (Ev : Birthday_value bd = value).
    { unfold Birthday_init in Hbd. destruct (validate_birthday now value); [|discriminate].
      now injection Hbd as <-. }
    rewrite Ev. split; [|exact Hbd].
    destruct b; try discriminate. exact (strptime_valid _ _ Hsv).
  - simpl in H. exists (mkName n), (mkAddress a), (map PObj phs), (Some ems), None.
    now repeat split.
Qed.

Lemma Record_init_name n a ps es b (r : record) :
  Record_init n a ps es b = Ok r -> Name_value n = JStr (name r).
Proof.
  unfold Record_init. destruct (Name_value n); try discriminate. simpl.
  destruct (str_of_value (Address_value a)); [|discriminate]. simpl.
  destruct (process_phones ps); [|discriminate]. simpl.
  intros H. now injection H as <-.
Qed.

Lemma fold_add_record_constructed (now : datetime) (rs : list record) (book : AddressBook) :
  constructed_book now book -> Forall (constructed now) rs ->
  constructed_book now (fold_left add_record rs book).
Proof.
  intros Hb Hrs. revert book Hb. induction Hrs as [|r rs Hr _ IH]; intros book Hb.
  - exact Hb.
  - simpl. apply IH. now apply constructed_book_add_record.
Qed.

(** X13.  A book that [load_from_file] returns has one entry per key,
    every record under its name, and every record built by the constructor
    from validated emails and birthday. *)
Theorem load_from_file_constructed_book
    (now : datetime) (filename : string) (fs : filesystem) (book : AddressBook) :
  load_from_file now filename fs = Ok book -> constructed_book now book.
Proof.
  rewrite load_from_file_cases.
  destruct (fs filename) as [[[data|]|]|]; try discriminate.
  - destruct (getitem data "records") as [x|]; [|discriminate]. simpl.
    destruct (iter x) as [l|]; [|discriminate]. simpl.
    destruct (mapM (load_record now) l) as [rs|] eqn:Hrs; [|discriminate]. simpl.
    intros H. injection H as <-.
    apply fold_add_record_constructed; [apply constructed_book_empty|].
    apply mapM_Forall2 in Hrs. clear -Hrs.
    induction Hrs as [|x r l l' Hx _ IH]; constructor; [|exact IH].
    exact (load_record_constructed _ _ _ Hx).
  - intros H. injection H as <-. apply constructed_book_empty.
Qed.

(** ** Two saves, then a load *)

(** X14.  A book with a birthday is saved twice to a file that can be
    opened for writing: the first save writes the document, the second
    raises AttributeError after emptying the file, and a load of the file
    then raises JSONDecodeError. *)
Theorem second_save_empties_the_file
    (env : environment) (now : datetime) (book : AddressBook) (filename : string)
    (fs : filesystem) :
  forallb (fun kv => birthday_is_date (snd kv)) book = true ->
  forallb str_phones (values book) = true ->
  existsb (fun kv => birthday_truthy (birthday (snd kv))) book = true ->
  is_ok (open_write env fs filename) = true ->
  exists book1 fs1 book2 fs2,
    save_to_file env book filename fs = (Ok tt, book1, fs1)
    /\ fs1 filename = Some (File (Document (saved_document book)))
    /\ save_to_file env book1 filename fs1 = (Raise AttributeError, book2, fs2)
    /\ load_from_file now filename fs2 = Raise JSONDecodeError.
Proof.
  intros Hd Hs He Hf.
  exists (map stringify_entry book), (write fs filename (Document (saved_document book))),
         (map stringify_entry book),
         (write (write fs filename (Document (saved_document book))) filename NotJson).
  split; [now apply save_to_file_dates|]. split.
  - apply write_lookup.
  - split.
    + unfold save_to_file.
      rewrite (open_write_again env _ _ (Document (saved_document book)) Hf).
      now rewrite (stringify_birthdays_again _ Hd He).
    + now rewrite load_from_file_cases, write_lookup.
Qed.

(** ** The birthday query after a save *)

Lemma days_left_midnight (today : date) (value : datetime) :
  days_left today (mkDatetime (dt_date value) 0) = days_left today value.
Proof. reflexivity. Qed.

Lemma upcoming_loop_after_save (now0 now1 : datetime) (days : Z) (book : AddressBook) acc :
  datetime_leb now0 now1 = true ->
  Forall (fun kv => storable now0 (snd kv)) book ->
  forallb (fun kv => four_digit_year (snd kv)) book = true ->
  forallb (fun kv => upcoming_body_ok now1 (snd kv)) book = true ->
  upcoming_loop now1 days (map stringify_entry book) acc
  = (Ok (acc ++ map reloaded (filter (due_in now1 days) (values book))),
     map reload_entry book).
Proof.
  intros Hclock Hst. revert acc.
  induction Hst as [|[k r] book Hr _ IH]; intros acc Hy Hok.
  - simpl. now rewrite app_nil_r.
  - cbn [forallb snd] in Hok, Hy. apply andb_true_iff in Hok as [Hrok Hok].
    apply andb_true_iff in Hy as [Hry Hy]. specialize (fun a => IH a Hy).
    unfold four_digit_year in Hry.
    cbn [map values filter snd]. change (stringify_entry (k, r)) with (k, stringified r).
    change (reload_entry (k, r)) with (k, reloaded r). fold (values book).
    destruct Hr as (_ & _ & Hb). cbn [snd] in Hb.
    unfold upcoming_body_ok, revive_birthday in Hrok.
    unfold stringified, reloaded, due_in.
    destruct (birthday r) as [|b|s] eqn:Eb; [| |contradiction].
    + cbn [upcoming_loop]. rewrite Eb. cbn [birthday_truthy].
      now rewrite (IH acc Hok).
    + destruct Hb as [Hvalid Hle].
      assert (Hd : valid_date (dt_date (Birthday_value b)) = true).
      { unfold valid_datetime in Hvalid. apply andb_true_iff in Hvalid as [H _].
        now apply andb_true_iff in H as [H _]. }
      assert (Hmid : validate_birthday now1
                       (mkDatetime (dt_date (Birthday_value b)) 0) = true).
      { unfold validate_birthday in *.
        apply (datetime_leb_trans _ now0); [|exact Hclock].
        apply (datetime_leb_trans _ (Birthday_value b)); [|exact Hle].
        now apply midnight_leb. }
      cbn [birthday_truthy bind] in Hrok. rewrite Eb in Hrok.
      cbn [birthday_attr_value bind] in Hrok.
      destruct (days_left (dt_date now1) (Birthday_value b)) as [n|] eqn:En;
        [|discriminate].
      cbn [upcoming_loop]. unfold revive_birthday.
      cbn [birthday set_birthday birthday_truthy]. rewrite strftime_nonempty.
      cbn [negb]. cbv beta iota in Hry. apply Z.leb_le in Hry.
      rewrite (strptime_strftime _ Hd Hry). cbn [bind].
      unfold Birthday_init. rewrite Hmid.
      cbn [bind birthday set_birthday birthday_attr_value Birthday_value
           name address phones emails].
      rewrite days_left_midnight, En.
      destruct (n =? days); rewrite (IH _ Hok); cbn [map]; rewrite ?Eb;
        now rewrite <- ?app_assoc.
Qed.

(** X15.  On the book a save has left, with every birthday in the year
    1000 or later, the birthday query gives every record its [Birthday]
    back, at midnight of its date, and returns the records whose day count
    is [days]. *)
Theorem get_upcoming_birthday_contacts_after_save_restores
    (now0 now1 : datetime) (book : AddressBook) (days : Z) :
  datetime_leb now0 now1 = true ->
  Forall (fun kv => storable now0 (snd kv)) book ->
  forallb (fun kv => four_digit_year (snd kv)) book = true ->
  forallb (fun kv => upcoming_body_ok now1 (snd kv)) book = true ->
  get_upcoming_birthday_contacts now1 (map stringify_entry book) days
  = (Ok (map reloaded (filter (due_in now1 days) (values book))),
     map reload_entry book).
Proof.
  intros Hclock Hst Hy Hok. unfold get_upcoming_birthday_contacts.
  now rewrite (upcoming_loop_after_save now0 now1 days book [] Hclock Hst Hy Hok).
Qed.

(** ** What a save and a query leave alone *)

Lemma same_but_birthday_refl (r : record) : same_but_birthday r r.
Proof. now repeat split. Qed.

Lemma same_but_birthday_set (r : record) (b : birthday_field) :
  same_but_birthday r (set_birthday r b).
Proof. now repeat split. Qed.

Lemma Forall2_same_entry_refl (book : AddressBook) : Forall2 same_entry book book.
Proof.
  induction book as [|kv book IH]; constructor; [|exact IH].
  split; [reflexivity|apply same_but_birthday_refl].
Qed.

Lemma stringify_birthdays_frame (book : AddressBook) :
  Forall2 same_entry book (snd (stringify_birthdays book)).
Proof.
  induction book as [|[k r] book IH]; simpl; [constructor|].
  destruct (birthday_truthy (birthday r)).
  - destruct (birthday_attr_value (birthday r)) as [value|e].
    + destruct (stringify_birthdays book) as [res rest]. simpl in *.
      constructor; [|exact IH]. split; [reflexivity|apply same_but_birthday_set].
    + apply Forall2_same_entry_refl.
  - destruct (stringify_birthdays book) as [res rest]. simpl in *.
    constructor; [|exact IH]. split; [reflexivity|apply same_but_birthday_refl].
Qed.

(** X16.  Whatever [save_to_file] does, the book keeps its keys in order
    and each record its name, address, phones and emails, and no other file
    is changed. *)
Theorem save_to_file_frame
    (env : environment) (book : AddressBook) (filename : string) (fs : filesystem) :
  Forall2 same_entry book (snd (fst (save_to_file env book filename fs)))
  /\ forall p, p <> filename -> snd (save_to_file env book filename fs) p = fs p.
Proof.
  unfold save_to_file, open_write.
  pose proof (stringify_birthdays_frame book) as Hb.
  assert (Hw : forall c p, p <> filename -> write fs filename c p = fs p).
  { intros c p Hp. unfold write. destruct (String.eqb_spec p filename); congruence. }
  destruct (filename =? "")%string;
    [split; [apply Forall2_same_entry_refl|reflexivity]|].
  destruct (env filename);
    [split; [apply Forall2_same_entry_refl|reflexivity]|].
  destruct (fs filename) as [[c|]|]; simpl;
    try (split; [apply Forall2_same_entry_refl|reflexivity]);
    destruct (stringify_birthdays book) as [[[]|e] book']; simpl in *;
    try destruct (mapM record_to_json (values book')); simpl; split; auto.
Qed.

Lemma revive_birthday_frame (now : datetime) (r r1 : record) :
  revive_birthday now r = Ok r1 ->
  same_but_birthday r r1
  /\ (birthday_is_date r = true -> r1 = r).
Proof.
  unfold revive_birthday, birthday_is_date. destruct (birthday r) as [|b|s] eqn:E.
  - intros H. injection H as <-. split; [apply same_but_birthday_refl|reflexivity].
  - intros H. injection H as <-. split; [apply same_but_birthday_refl|reflexivity].
  - destruct (strptime s); [|discriminate]. simpl.
    destruct (Birthday_init now a); [|discriminate]. simpl.
    intros H. injection H as <-. split; [apply same_but_birthday_set|discriminate].
Qed.

Lemma Forall2_kept_entry_refl (book : AddressBook) : Forall2 kept_entry book book.
Proof.
  induction book as [|kv book IH]; constructor; [|exact IH].
  split; [split; [reflexivity|apply same_but_birthday_refl]|reflexivity].
Qed.

Lemma upcoming_loop_frame (now : datetime) (days : Z) (book : AddressBook) acc :
  Forall2 kept_entry book (snd (upcoming_loop now days book acc)).
Proof.
  revert acc. induction book as [|[k r] book IH]; intros acc; simpl; [constructor|].
  destruct (birthday_truthy (birthday r)).
  - destruct (revive_birthday now r) as [r1|e] eqn:Er.
    + apply revive_birthday_frame in Er as [Hs Hk].
      assert (Hkr : kept_entry (k, r) (k, r1)).
      { split; [now split|]. simpl. intros H. now rewrite (Hk H). }
      destruct (birthday_attr_value (birthday r1)) as [v|e]; simpl.
      * destruct (days_left (dt_date now) v) as [n|e]; simpl.
        -- specialize (IH (if n =? days then acc ++ [r1] else acc)).
           destruct (upcoming_loop now days book _) as [res rest]. simpl in *.
           constructor; assumption.
        -- constructor; [exact Hkr|apply Forall2_kept_entry_refl].
      * constructor; [exact Hkr|apply Forall2_kept_entry_refl].
    + apply Forall2_kept_entry_refl.
  - specialize (IH acc). destruct (upcoming_loop now days book acc) as [res rest].
    simpl in *. constructor; [|exact IH].
    split; [split; [reflexivity|apply same_but_birthday_refl]|reflexivity].
Qed.

(** X17.  Whatever the birthday query does, the book keeps its keys in
    order and each record its name, address, phones and emails, and a record
    whose birthday was not a string is not changed at all. *)
Theorem get_upcoming_birthday_contacts_frame
    (now : datetime) (book : AddressBook) (days : Z) :
  Forall2 kept_entry book (snd (get_upcoming_birthday_contacts now book days)).
Proof.
  unfold get_upcoming_birthday_contacts.
  exact (upcoming_loop_frame now days book []).
Qed.

(** ** InMemoryDataStorage: add, get, delete *)

Lemma dict_del_keys {A : Type} (k x : string) (d : list (string * A)) :
  In x (map fst (dict_del k d)) -> In x (map fst d).
Proof.
  induction d as [|[k' v'] d IH]; simpl; [tauto|].
  destruct (String.eqb k' k); simpl; [tauto|]. intros [H|H]; [tauto|]. right. now apply IH.
Qed.

Lemma dict_del_NoDup {A : Type} (k : string) (d : list (string * A)) :
  NoDup (map fst d) -> NoDup (map fst (dict_del k d)).
Proof.
  induction d as [|[k' v'] d IH]; simpl; intros H; [constructor|].
  inversion H as [|? ? Hk Hd]; subst.
  destruct (String.eqb k' k); simpl; [exact Hd|].
  constructor; [|now apply IH]. intros Hin. apply Hk. now apply dict_del_keys in Hin.
Qed.

Lemma assoc_None_keys {A : Type} (k : string) (d : list (string * A)) :
  ~ In k (map fst d) -> assoc k d = None.
Proof.
  intros H. destruct (assoc k d) eqn:E; [|reflexivity].
  exfalso. apply H. apply dict_has_In. unfold dict_has. now rewrite E.
Qed.

Lemma assoc_dict_del_same {A : Type} (k : string) (d : list (string * A)) :
  NoDup (map fst d) -> assoc k (dict_del k d) = None.
Proof.
  induction d as [|[k' v'] d IH]; simpl; intros H; [reflexivity|].
  inversion H as [|? ? Hk Hd]; subst.
  destruct (String.eqb_spec k' k) as [->|Hne].
  - now apply assoc_None_keys.
  - simpl. destruct (String.eqb_spec k' k); [congruence|now apply IH].
Qed.

Lemma assoc_dict_del_other {A : Type} (k k' : string) (d : list (string * A)) :
  k' <> k -> assoc k' (dict_del k d) = assoc k' d.
Proof.
  intros Hne. induction d as [|[k0 v0] d IH]; simpl; [reflexivity|].
  destruct (String.eqb_spec k0 k) as [->|H0]; simpl.
  - destruct (String.eqb_spec k k'); [congruence|reflexivity].
  - destruct (String.eqb_spec k0 k'); [reflexivity|exact IH].
Qed.

(** X18.  In a storage, [get] after [add] returns the value added,
    [get] after [delete] returns [None], both leave the other keys as they
    were, [delete] of a key that is not there changes nothing, and the keys
    stay distinct. *)
Theorem storage_laws {V : Type} (s : InMemoryDataStorage V) (key other : string) (value : V) :
  NoDup (map fst s) ->
  other <> key ->
  storage_get (storage_add s key value) key = Some value
  /\ storage_get (storage_add s key value) other = storage_get s other
  /\ storage_get (storage_delete s key) key = None
  /\ storage_get (storage_delete s key) other = storage_get s other
  /\ (storage_get s key = None -> storage_delete s key = s)
  /\ NoDup (map fst (storage_add s key value))
  /\ NoDup (map fst (storage_delete s key)).
Proof.
  intros Hnd Hne. unfold storage_get, storage_add, storage_delete, dict_has.
  split; [apply assoc_dict_set_same|]. split; [now apply assoc_dict_set_other|].
  split; [|split; [|split; [|split]]].
  - destruct (assoc key s) eqn:E; [now apply assoc_dict_del_same|exact E].
  - destruct (assoc key s); [now apply assoc_dict_del_other|reflexivity].
  - now intros ->.
  - now apply dict_set_NoDup.
  - destruct (assoc key s); [now apply dict_del_NoDup|exact Hnd].
Qed.

(** ** The menu: contacts added and deleted *)

Lemma dict_del_Forall {A : Type} (P : string * A -> Prop) (k : string)
    (d : list (string * A)) :
  Forall P d -> Forall P (dict_del k d).
Proof.
  intros H. induction H as [|[k' v'] d Hx Hd IH]; simpl; [constructor|].
  destruct (String.eqb k' k); [exact Hd|now constructor].
Qed.

(** X19.  Choice 3 of the menu removes the contact under the name and no
    other, keeps the book well formed, and does nothing and shows nothing
    for a name that is not in the book. *)
Theorem delete_contact_removes (now : datetime) (book : AddressBook) (name other : string) :
  constructed_book now book ->
  other <> name ->
  let book' := snd (delete_contact book name) in
  assoc name book' = None
  /\ assoc other book' = assoc other book
  /\ constructed_book now book'
  /\ (assoc name book = None -> delete_contact book name = ([], book)).
Proof.
  intros [Hnd Hall] Hne. unfold delete_contact, dict_has.
  destruct (assoc name book) eqn:E; simpl.
  - split; [now apply assoc_dict_del_same|]. split; [now apply assoc_dict_del_other|].
    split; [|discriminate]. split; [now apply dict_del_NoDup|now apply dict_del_Forall].
  - repeat split; auto.
Qed.

Lemma strptime_raises (s : string) (e : exn) :
  strptime s = Raise e -> exists msg, e = ValueError msg.
Proof.
  unfold strptime, datetime_ymd.
  repeat match goal with
         | |- match ?x with _ => _ end = _ -> _ => destruct x
         | |- (if ?x then _ else _) = _ -> _ => destruct x
         | |- Ok _ = _ -> _ => discriminate
         | |- Raise _ = Raise _ -> _ => intros H; injection H as <-; eauto
         end.
Qed.

Lemma process_phones_raises (ps : list phone_item) (e : exn) :
  process_phones ps = Raise e -> exists msg, e = ValueError msg.
Proof.
  induction ps as [|p ps IH]; simpl; [discriminate|].
  destruct (process_numbers _) as [l|e'] eqn:Hn; simpl.
  - destruct (process_phones ps) as [l'|e'']; simpl; [discriminate|].
    intros H. injection H as <-. now apply IH.
  - intros H. injection H as <-.
    apply process_numbers_raises in Hn as (token & _ & ->). eauto.
Qed.

(** X20.  Choice 1 of the menu never raises: it shows lines, and leaves
    the book as it was or with one record added under the name entered; the
    book stays one of records built by the constructors, each under its
    name. *)
Theorem add_contact_keeps_book
    (now : datetime) (book : AddressBook) (who address phone email birthday : string) :
  constructed_book now book ->
  exists lines,
    fst (add_contact now book who address phone email birthday) = Ok lines
    /\ constructed_book now (snd (add_contact now book who address phone email birthday))
    /\ (snd (add_contact now book who address phone email birthday) = book
        \/ exists r, name r = who
                     /\ snd (add_contact now book who address phone email birthday)
                        = add_record book r).
Proof.
  intros Hbook. unfold add_contact.
  destruct (_ && _); [|simpl; eauto].
  unfold Phone_init, Email_init.
  destruct (validate_phone phone); [|simpl; eauto].
  destruct (validate_email email) eqn:Hem; [|simpl; eauto]. cbn [bind].
  destruct (strptime birthday) as [value|e] eqn:Hsp.
  2:{ apply strptime_raises in Hsp as [msg ->]. simpl. eauto. }
  cbn [bind]. unfold Birthday_init.
  destruct (validate_birthday now value) eqn:Hv; [|simpl; eauto]. cbn [bind].
  destruct (Record_init _ _ _ _ _) as [r|e] eqn:Hr.
  - simpl. eexists. split; [reflexivity|]. split.
    + apply constructed_book_add_record; [exact Hbook|].
      exists (mkName (JStr who)), (mkAddress (JStr address)),
             [PObj (mkPhone phone)], (Some [mkEmail email]), (Some (mkBirthday value)).
      split; [exact Hr|]. split.
      * constructor; [|constructor]. unfold Email_init. simpl. now rewrite Hem.
      * split; [exact (strptime_valid _ _ Hsp)|]. unfold Birthday_init. simpl.
        now rewrite Hv.
    + right. exists r. split; [|reflexivity].
      apply Record_init_name in Hr. simpl in Hr. now injection Hr.
  - unfold Record_init in Hr. cbn [Name_value Address_value str_of_value bind] in Hr.
    destruct (process_phones _) as [ps|e'] eqn:Hp; [discriminate|].
    cbn [bind] in Hr. injection Hr as <-.
    apply process_phones_raises in Hp as [msg ->]. simpl. eauto.
Qed.

(** ** What the constructor stores, field by field *)

(** X21.  A record that the constructor returns has the name and the
    address as given, phones that are valid and free of separators, the
    emails and the birthday as given. *)
Theorem Record_init_stores
    (n : Name) (a : Address) (ps : list phone_item) (es : option (list Email))
    (b : option Birthday) (r : record) :
  Record_init n a ps es b = Ok r ->
  Name_value n = JStr (name r)
  /\ Address_value a = JStr (address r)
  /\ forallb stored_phone (phones r) = true
  /\ emails r = match es with Some l => map Email_value l | None => [] end
  /\ birthday r = match b with Some o => BObj o | None => BNone end.
Proof.
  unfold Record_init. destruct (Name_value n); try discriminate. simpl.
  destruct (Address_value a); try discriminate. simpl.
  destruct (process_phones ps) as [out|] eqn:Hp; [|discriminate]. simpl.
  intros H. injection H as <-. simpl.
  repeat split. exact (process_phones_stored _ _ Hp).
Qed.

(** ** The further properties on the scenario *)

Lemma validate_email_needs_at_and_dot_witness :
  count_char "@" "ann@x.com" = 1%nat
  /\ exists local domain,
       "ann@x.com"%string = (local ++ String "@" domain)%string
       /\ local <> EmptyString /\ has_char "." domain = true.
Proof. apply validate_email_needs_at_and_dot. reflexivity. Defined.

Lemma validate_email_accepts_witness :
  validate_email ("ann" ++ String "@" ("x" ++ String "." "com")) = true
  /\ validate_email ("ann" ++ String "@" ("x" ++ String "." ("com" ++ newline))) = true.
Proof.
  apply validate_email_accepts; solve [reflexivity | discriminate].
Defined.

Lemma edit_phone_first_entry_unvalidated_witness :
  validate_phone "bad" = false
  /\ snd (edit_phone ann "380-1234567" "bad") = set_phones ann [PStr "bad"]
  /\ snd (edit_phone ann "0000000000" "bad") = ann.
Proof.
  split; [reflexivity|]. split.
  - rewrite (proj1 (edit_phone_first_entry_unvalidated ann [] [] "380-1234567" "bad"
                      eq_refl) eq_refl). reflexivity.
  - rewrite (proj2 (edit_phone_first_entry_unvalidated ann [PStr "380-1234567"] []
                      "0000000000" "bad" eq_refl) eq_refl). reflexivity.
Defined.


Lemma Record_init_stray_separator_witness :
  Phone_init (JStr ("0000000000" ++ newline)) = Ok (mkPhone ("0000000000" ++ newline))
  /\ exists msg,
       Record_init (mkName (JStr "Ann")) (mkAddress (JStr "Main St"))
                   [PObj (mkPhone ("0000000000" ++ newline))] None None
       = Raise (ValueError msg).
Proof.
  split; [reflexivity|].
  apply (Record_init_stray_separator "Ann" "Main St" _ None None
           (PObj (mkPhone ("0000000000" ++ newline)))).
  - left. reflexivity.
  - right. right. exists "010"%char, "0000000000"%string. split; reflexivity.
Defined.

Lemma process_phones_one_entry_or_two_witness :
  process_phones [PStr ("380-1234567" ++ ", " ++ "0000000000")%string]
  = process_phones [PStr "380-1234567"; PStr "0000000000"].
Proof.
  apply process_phones_one_entry_or_two; solve [reflexivity | discriminate].
Defined.

Lemma days_to_birthday_after_save_witness :
  days_to_birthday november_2026 ann_saved = Raise AttributeError.
Proof.
  apply (days_to_birthday_after_save writable november_2026 ann_book
           [("Ann", ann_saved)] "book.json" (fun _ => None) ann_file "Ann" ann_saved).
  - reflexivity.
  - left. reflexivity.
  - reflexivity.
Defined.

Lemma days_to_birthday_range_witness :
  0 <= 178 <= 365
  /\ (178 = 0 <-> month (dt_date (Birthday_value ann_birthday)) = month (dt_date november_2026)
                  /\ day (dt_date (Birthday_value ann_birthday)) = day (dt_date november_2026)).
Proof.
  apply (days_to_birthday_range november_2026 ann ann_birthday 178); reflexivity.
Defined.

Lemma get_upcoming_birthday_contacts_days_to_birthday_witness :
  exists found,
    get_upcoming_birthday_contacts november_2026 ann_book 178 = (Ok found, ann_book)
    /\ (In ann found <-> 178 = 178).
Proof.
  apply (get_upcoming_birthday_contacts_days_to_birthday november_2026 ann_book "Ann").
  - reflexivity.
  - reflexivity.
  - left. reflexivity.
  - reflexivity.
Defined.

Lemma add_record_lookup_witness :
  assoc "Ann" (add_record ann_book ann_saved) = Some ann_saved
  /\ map fst (add_record ann_book ann_saved) = map fst ann_book.
Proof.
  destruct (add_record_lookup ann_book ann_saved "Bob") as (H1 & _ & H3 & _).
  split; [exact H1|]. apply H3. reflexivity.
Defined.

Lemma search_records_hits_witness :
  search_records ann_book "ANN"
  = Ok (flat_map (search_hits (lower "ANN")) (values ann_book)).
Proof.
  apply search_records_hits.
  - reflexivity.
  - constructor; [simpl; tauto|constructor].
Defined.

Lemma load_from_file_constructed_book_witness : constructed_book november_2026 ann_book.
Proof.
  apply (load_from_file_constructed_book november_2026 "book.json" ann_file).
  vm_compute. reflexivity.
Defined.

Lemma second_save_empties_the_file_witness :
  exists book1 fs1 book2 fs2,
    save_to_file writable ann_book "book.json" (fun _ => None) = (Ok tt, book1, fs1)
    /\ fs1 "book.json"%string = Some (File (Document (saved_document ann_book)))
    /\ save_to_file writable book1 "book.json" fs1 = (Raise AttributeError, book2, fs2)
    /\ load_from_file november_2026 "book.json" fs2 = Raise JSONDecodeError.
Proof.
  apply second_save_empties_the_file; reflexivity.
Defined.

Lemma get_upcoming_birthday_contacts_after_save_restores_witness :
  get_upcoming_birthday_contacts november_2026 (map stringify_entry ann_book) 178
  = (Ok (map reloaded (filter (due_in november_2026 178) (values ann_book))),
     map reload_entry ann_book).
Proof.
  apply (get_upcoming_birthday_contacts_after_save_restores november_2026 november_2026).
  - reflexivity.
  - constructor; [|constructor]. repeat split; reflexivity.
  - reflexivity.
  - reflexivity.
Defined.

Lemma save_to_file_frame_witness :
  Forall2 same_entry ann_book
          (snd (fst (save_to_file writable ann_book "book.json" ann_file)))
  /\ snd (save_to_file writable ann_book "book.json" ann_file) "other.json"%string
     = ann_file "other.json"%string.
Proof.
  destruct (save_to_file_frame writable ann_book "book.json" ann_file) as [H1 H2].
  split; [exact H1|]. apply H2. discriminate.
Defined.

Lemma storage_laws_witness :
  storage_get (storage_add (storage_add storage_init "a" 1) "b" 2) "b" = Some 2
  /\ storage_get (storage_add (storage_add storage_init "a" 1) "b" 2) "a" = Some 1
  /\ storage_get (storage_delete (storage_add storage_init "a" 1) "a") "a" = None.
Proof.
  assert (Hnd : NoDup (map fst (storage_add (@storage_init Z) "a" 1))).
  { constructor; [simpl; tauto|constructor]. }
  assert (Hne : "a"%string <> "b"%string) by discriminate.
  destruct (storage_laws (storage_add storage_init "a" 1) "b" "a" 2 Hnd Hne)
    as (H1 & H2 & _).
  assert (Hne' : "b"%string <> "a"%string) by discriminate.
  destruct (storage_laws (storage_add storage_init "a" 1) "a" "b" 1 Hnd Hne')
    as (_ & _ & H3 & _).
  split; [exact H1|]. split; [exact H2|exact H3].
Defined.

Lemma delete_contact_removes_witness :
  assoc "Ann" (snd (delete_contact ann_book "Ann")) = None
  /\ assoc "Bob" (snd (delete_contact ann_book "Ann")) = assoc "Bob" ann_book
  /\ constructed_book november_2026 (snd (delete_contact ann_book "Ann"))
  /\ (assoc "Ann" ann_book = None -> delete_contact ann_book "Ann" = ([], ann_book)).
Proof.
  apply (delete_contact_removes november_2026 ann_book "Ann" "Bob").
  - exact ann_in_constructed_book.
  - discriminate.
Defined.

Lemma add_contact_keeps_book_witness :
  exists lines,
    fst (add_contact november_2026 [] "Ann" "Main St" "380-1234567" "ann@x.com"
                     "2000-05-01") = Ok lines
    /\ constructed_book november_2026
         (snd (add_contact november_2026 [] "Ann" "Main St" "380-1234567" "ann@x.com"
                           "2000-05-01"))
    /\ (snd (add_contact november_2026 [] "Ann" "Main St" "380-1234567" "ann@x.com"
                         "2000-05-01") = []
        \/ exists r, name r = "Ann"%string
                     /\ snd (add_contact november_2026 [] "Ann" "Main St" "380-1234567"
                                         "ann@x.com" "2000-05-01")
                        = add_record [] r).
Proof.
  apply add_contact_keeps_book. apply constructed_book_empty.
Defined.

Lemma Record_init_stores_witness :
  Name_value (mkName (JStr "Ann")) = JStr (name ann)
  /\ Address_value (mkAddress (JStr "Main St")) = JStr (address ann)
  /\ forallb stored_phone (phones ann) = true
  /\ emails ann = map Email_value [mkEmail "ann@x.com"]
  /\ birthday ann = BObj ann_birthday.
Proof.
  apply (Record_init_stores (mkName (JStr "Ann")) (mkAddress (JStr "Main St"))
           [PObj (mkPhone "380-1234567")] (Some [mkEmail "ann@x.com"])
           (Some ann_birthday) ann).
  vm_compute. reflexivity.
Defined.

(** The menu on the scenario: the contact is added, a second answer with a
    bad phone changes nothing, and the contact is deleted. *)
Example menu_scenario :
  let '(shown1, book1) :=
    add_contact november_2026 [] "Ann" "Main St" "380-1234567" "ann@x.com" "2000-05-01" in
  let '(shown2, book2) :=
    add_contact november_2026 book1 "Bob" "Elm St" "bad" "bob@x.com" "2001-01-01" in
  let '(shown3, book3) := delete_contact book2 "Ann" in
  shown1 = Ok ["Contact Ann added successfully!"%string]
  /\ book1 = ann_book
  /\ shown2 = Ok ["Error: Invalid phone number"%string; "Please enter valid data."%string]
  /\ book2 = ann_book
  /\ shown3 = ["Contact Ann deleted successfully!"%string]
  /\ book3 = [].
Proof. vm_compute. repeat split. Qed.

Example Record_str_ann :
  Record_str ann
  = Ok ("Name: Ann" ++ newline ++ "Address: Main St" ++ newline
        ++ "Phones: 380-1234567" ++ newline ++ "Emails: ann@x.com" ++ newline
        ++ "Birthday: 2000-05-01" ++ newline ++ dashes)%string.
Proof. vm_compute. reflexivity. Qed.
